(** * Document-symbol aggregation and the checkable tree-view bridge

    A shallow embedding of
    - [src/vs/editor/contrib/quickOpen/quickOpen.ts]
      ([getDocumentSymbols], [compareEntriesUsingStart], [flatten]) and
    - [src/sql/workbench/api/node/extHostModelViewTree.ts]
      ([ExtHostModelViewTreeViews] and its [ExtHostTreeView] subclass),
    followed by the properties of both that the design document states.

    JavaScript objects used as dictionaries are finite maps, a [Map] is a
    finite map on its key type, promises are their settled outcome, and every
    interaction with a collaborator (data provider, host proxy, console,
    unexpected-error sink) is recorded as an event of a trace. *)

From Stdlib Require Import ZArith Lia Ascii.
From stdpp Require Import base option list sorting strings pretty gmap fin_maps.

Local Open Scope string_scope.
Local Open Scope Z_scope.
Local Open Scope list_scope.

(** ** JavaScript values *)

(** The values an extension can hand over as tree elements ([T] is [any] in
    the registry) and store in the fields of a tree item. Objects are known by
    their reference only: [Map] and [===] compare them by identity. *)
Inductive JsVal :=
  | VUndefined
  | VNull
  | VBool (b : bool)
  | VNum (n : Z)
  | VStr (s : string)
  | VObj (ref : positive).

#[global] Instance JsVal_eq_dec : EqDecision JsVal.
Proof. solve_decision. Defined.

Definition JsVal_encode (v : JsVal) : unit + (unit + (bool + (Z + (string + positive)))) :=
  match v with
  | VUndefined => inl tt
  | VNull => inr (inl tt)
  | VBool b => inr (inr (inl b))
  | VNum n => inr (inr (inr (inl n)))
  | VStr s => inr (inr (inr (inr (inl s))))
  | VObj r => inr (inr (inr (inr (inr r))))
  end.

Definition JsVal_decode (x : unit + (unit + (bool + (Z + (string + positive))))) : JsVal :=
  match x with
  | inl _ => VUndefined
  | inr (inl _) => VNull
  | inr (inr (inl b)) => VBool b
  | inr (inr (inr (inl n))) => VNum n
  | inr (inr (inr (inr (inl s)))) => VStr s
  | inr (inr (inr (inr (inr r)))) => VObj r
  end.

#[global] Instance JsVal_countable : Countable JsVal.
Proof.
  refine (inj_countable' JsVal_encode JsVal_decode _).
  intros []; reflexivity.
Defined.

(** [ToBoolean]: what [!x], [x || y] and [if (x)] look at. *)
Definition truthy (v : JsVal) : bool :=
  match v with
  | VUndefined | VNull => false
  | VBool b => b
  | VNum n => negb (Z.eqb n 0)
  | VStr s => negb (String.eqb s "")
  | VObj _ => true
  end.

(** A plain object read and written by property name. *)
Abbreviation Obj := (gmap string JsVal).

(** [o.p]: a missing property reads as [undefined]. *)
Definition get_prop (o : Obj) (p : string) : JsVal := default VUndefined (o !! p).

(** ** Errors and promises *)

#[warnings="-register-all"] Inductive JsError :=
  | Error (message : string)
  | TypeError (message : string)
  | External (payload : JsVal)
  | JoinError (errors : list JsError).

(** A settled promise. *)
Inductive Promise (A : Type) :=
  | Resolved (value : A)
  | Rejected (reason : JsError).
Arguments Resolved {A} value.
Arguments Rejected {A} reason.

(** What a call into extension code can do: return a plain value, return a
    thenable that later fulfils or rejects, or throw. *)
Inductive Outcome (A : Type) :=
  | Returns (value : A)
  | ResolvesTo (value : A)
  | RejectsWith (reason : JsError)
  | Throws (reason : JsError).
Arguments Returns {A} value.
Arguments ResolvesTo {A} value.
Arguments RejectsWith {A} reason.
Arguments Throws {A} reason.

(** Modelled from the spec: [asWinJsPromise] of [vs/base/common/async] is not
    part of the excerpt. It runs the callback inside a promise constructor, so
    a returned value and a fulfilled thenable both fulfil the promise, and a
    rejected thenable and a thrown exception both reject it (section 4.1: a
    provider that "throws, rejects, or returns" is one settled call). *)
Definition asWinJsPromise {A} (call : Outcome A) : Promise A :=
  match call with
  | Returns v | ResolvesTo v => Resolved v
  | RejectsWith e | Throws e => Rejected e
  end.

(** * Part I: the symbol aggregator (quickOpen.ts) *)

Module QuickOpen.

(** ** Data model *)

Record Range := {
  startLineNumber : Z;
  startColumn : Z;
  endLineNumber : Z;
  endColumn : Z
}.

Record Location := {
  uri : string;
  range : Range
}.

(** [containerName] is optional: [None] is the omitted property. *)
Record SymbolInformation := {
  kind : Z;
  location : Location;
  name : string;
  containerName : option string
}.

Record IOutline := { entries : list SymbolInformation }.

(** What [provideDocumentSymbols] hands back once settled: an array, or
    anything for which [Array.isArray] is false. *)
Inductive Provided :=
  | PArray (symbols : list SymbolInformation)
  | PNotArray (v : JsVal).

Section Aggregator.

(** The text model is opaque here: it is only passed on to the providers. *)
Context {ITextModel : Type}.

Record DocumentSymbolProvider := {
  provideDocumentSymbols : ITextModel → Outcome Provided
}.

(** [DocumentSymbolProviderRegistry]: [all model] lists the providers that
    apply to the model, in registration order. *)
Record LanguageFeatureRegistry := {
  all : ITextModel → list DocumentSymbolProvider
}.

(** Modelled from the spec: [Range.compareRangesUsingStarts] of
    [vs/editor/common/core/range] is not part of the excerpt. Section 4.1:
    "primary key = range start position (line then column) ... ties are not
    further broken". [Range.lift] turns a plain range into a [Range] with the
    same four numbers. *)
Definition lift (r : Range) : Range := r.

Definition compareRangesUsingStarts (a b : Range) : Z :=
  if Z.eqb (startLineNumber a) (startLineNumber b)
  then startColumn a - startColumn b
  else startLineNumber a - startLineNumber b.

Definition compareEntriesUsingStart (a b : SymbolInformation) : Z :=
  compareRangesUsingStarts (lift (range (location a))) (lift (range (location b))).

(** [a || b] on an optional string and a string. *)
Definition or_label (own : option string) (override : string) : string :=
  match own with
  | Some s => if truthy (VStr s) then s else override
  | None => override
  end.

(** [flatten] pushes one rebuilt entry per input entry onto [bucket]; the
    bucket after the loop is returned. *)
Definition flatten (bucket entries : list SymbolInformation)
    (overrideContainerLabel : string) : list SymbolInformation :=
  foldl (λ bucket entry,
      bucket ++ [ {| kind := kind entry;
                     location := location entry;
                     name := name entry;
                     containerName :=
                       Some (or_label (containerName entry) overrideContainerLabel) |} ])
    bucket entries.

(** [Array.prototype.sort] with a comparator: [a] may stand before [b] when
    the comparator does not return a positive number. *)
Definition cmp_le (cmp : SymbolInformation → SymbolInformation → Z)
    (a b : SymbolInformation) : Prop := cmp a b ≤ 0.

#[global] Instance cmp_le_dec cmp a b : Decision (cmp_le cmp a b).
Proof. unfold cmp_le. apply _. Defined.

Definition array_sort (cmp : SymbolInformation → SymbolInformation → Z)
    (l : list SymbolInformation) : list SymbolInformation :=
  merge_sort (cmp_le cmp) l.

(** The state the closures of [getDocumentSymbols] share: the [entries]
    array, and the unexpected-error sink that [onUnexpectedExternalError]
    reports to. *)
Record Pending := {
  acc_entries : list SymbolInformation;
  acc_sink : list JsError
}.

(** Modelled from the spec: [onUnexpectedExternalError] of
    [vs/base/common/errors] is not part of the excerpt. Section 4.1: "the
    error is logged/reported to an unexpected-error sink"; it returns
    normally. *)
Definition onUnexpectedExternalError (sink : list JsError) (err : JsError) : list JsError :=
  sink ++ [err].

(** The two continuations of one provider's promise. *)
Definition on_settled (st : Pending) (p : Promise Provided) : Pending :=
  match p with
  | Resolved (PArray result) =>
      {| acc_entries := acc_entries st ++ result; acc_sink := acc_sink st |}
  | Resolved (PNotArray _) => st
  | Rejected err =>
      {| acc_entries := acc_entries st;
         acc_sink := onUnexpectedExternalError (acc_sink st) err |}
  end.

(** [getDocumentSymbols]. Every provider is called at once; [schedule] lists
    the positions of the provider promises in the order in which they settle.
    Both continuations return normally, so every promise handed to
    [TPromise.join] fulfils, and the final continuation runs once all of them
    have (section 4.1: "after all provider calls settle"), on the entries
    collected by then. The second component is what reached the
    unexpected-error sink. *)
Definition getDocumentSymbols (registry : LanguageFeatureRegistry)
    (model : ITextModel) (schedule : list nat) : Promise IOutline * list JsError :=
  let promises :=
    map (λ support, asWinJsPromise (provideDocumentSymbols support model))
        (all registry model) in
  let settled := omap (λ i, promises !! i) schedule in
  let st := foldl on_settled {| acc_entries := []; acc_sink := [] |} settled in
  let flatEntries := flatten [] (acc_entries st) "" in
  let flatEntries := array_sort compareEntriesUsingStart flatEntries in
  (Resolved {| entries := flatEntries |}, acc_sink st).

(** ** Notions used in the statements *)

(** The arrays of the providers whose call succeeded with an array, in
    registration order. *)
Definition provided_array (p : Promise Provided) : list SymbolInformation :=
  match p with
  | Resolved (PArray result) => result
  | _ => []
  end.

Definition provider_failed (p : Promise Provided) : bool :=
  match p with
  | Resolved (PArray _) => false
  | _ => true
  end.

Definition reported_error (p : Promise Provided) : list JsError :=
  match p with
  | Rejected err => [err]
  | _ => []
  end.

(** The entry [flatten] builds from one input entry. *)
Definition flat_entry (override : string) (entry : SymbolInformation) : SymbolInformation :=
  {| kind := kind entry;
     location := location entry;
     name := name entry;
     containerName := Some (or_label (containerName entry) override) |}.

(** Order of two entries by range start: line, then column. *)
Definition start_le (a b : SymbolInformation) : Prop :=
  let ra := range (location a) in
  let rb := range (location b) in
  startLineNumber ra < startLineNumber rb
  ∨ (startLineNumber ra = startLineNumber rb ∧ startColumn ra ≤ startColumn rb).

End Aggregator.

Arguments DocumentSymbolProvider : clear implicits.
Arguments LanguageFeatureRegistry : clear implicits.

End QuickOpen.

(** * Part II: the tree-view bridge (extHostModelViewTree.ts) *)

Module ModelViewTree.

Abbreviation TreeItemHandle := string.

(** A call that either returns or throws. *)
Inductive Completion (A : Type) :=
  | Normal (value : A)
  | Thrown (reason : JsError).
Arguments Normal {A} value.
Arguments Thrown {A} reason.

(** Modelled from the spec: the [TreeNode] of [vs/workbench/api/node/
    extHostTreeViews] is not part of the excerpt. Section 3: a node carries
    its display item, the node of its parent (or none) and, once fetched, the
    handles of its children. The element is the key the node is stored
    under. *)
#[warnings="-register-all"] Inductive TreeNode := mkTreeNode {
  item : Obj;
  parent : option TreeNode;
  children : option (list TreeItemHandle)
}.

(** Everything the bridge does to its collaborators. *)
Inductive Event :=
  | ConsoleError (message : string)
  | RefreshDataProvider (handle : Z) (componentId : string)
      (itemsToRefresh : option (gmap string Obj))
  | GetTreeItem (element : JsVal)
  | NodeCheckedChanged (element : JsVal) (checked : JsVal).

(** [sqlops.TreeComponentDataProvider]: the members this file calls.
    [getParent] is optional and [reveal] tests it with [typeof]: [None] is
    "not a function". A tree item is an object; [None] is [null] or
    [undefined]. [onNodeCheckedChanged] is called for its effect; [Some e] is
    the exception it throws. *)
Module sqlops.
Record TreeComponentDataProvider := {
  getTreeItem : JsVal → Outcome (option Obj);
  getParent : option (JsVal → Outcome JsVal);
  onNodeCheckedChanged : JsVal → JsVal → option JsError
}.
End sqlops.

(** One [ExtHostTreeView] object: the constructor's parameter properties, the
    two maps of the inherited node cache ([elements]: handle to element,
    [nodes]: element to node) and the trace of what it has done so far. *)
Record ExtHostTreeView := {
  handle : Z;
  componentId : string;
  componentDataProvider : sqlops.TreeComponentDataProvider;
  elements : gmap TreeItemHandle JsVal;
  nodes : gmap JsVal TreeNode;
  trace : list Event
}.

Definition emit (ev : Event) (v : ExtHostTreeView) : ExtHostTreeView :=
  {| handle := handle v; componentId := componentId v;
     componentDataProvider := componentDataProvider v;
     elements := elements v; nodes := nodes v;
     trace := trace v ++ [ev] |}.

Definition set_cache (els : gmap TreeItemHandle JsVal) (nds : gmap JsVal TreeNode)
    (v : ExtHostTreeView) : ExtHostTreeView :=
  {| handle := handle v; componentId := componentId v;
     componentDataProvider := componentDataProvider v;
     elements := els; nodes := nds;
     trace := trace v |}.

(** The inherited members whose bodies are not part of the excerpt and of
    which the design document fixes no more than the signature: they are
    parameters of the model, and what is proved holds for all of them. *)
Record Inherited := {
  super_createTreeItem : ExtHostTreeView → JsVal → Obj → option TreeNode → Obj;
  super_getChildren :
    ExtHostTreeView → option TreeItemHandle → ExtHostTreeView * Promise (list Obj);
  resolveUnknownParentChain :
    ExtHostTreeView → JsVal → ExtHostTreeView * Promise (list TreeNode);
  resolveTreeNode :
    ExtHostTreeView → JsVal → option TreeNode → ExtHostTreeView * Promise TreeNode
}.

(** ** The object store of [createTreeItem] *)

Abbreviation Store := (gmap positive Obj).

(** An object literal: a new object at a reference not in use. *)
Definition alloc (σ : Store) (o : Obj) : Store * positive :=
  let l := fresh (dom σ) in (<[l := o]> σ, l).

(** [Object.assign(target, ...sources)]: the own properties of each source, in
    turn, are written to the target object, the later source winning. *)
Definition Object_assign (σ : Store) (target : positive) (sources : list positive) : Store :=
  foldl (λ σ source,
      match σ !! source, σ !! target with
      | Some s, Some t => <[target := s ∪ t]> σ
      | _, _ => σ
      end) σ sources.

(** The body of [createTreeItem] after the call to [super.createTreeItem],
    which has left its result at [item]. *)
Definition assign_checked (σ : Store) (item : positive) (extensionTreeItem : Obj)
    : Store * positive :=
  let '(σ, target) := alloc σ ∅ in
  let '(σ, source) := alloc σ {[ "checked" := get_prop extensionTreeItem "checked" ]} in
  (Object_assign σ target [item; source], target).

(** Modelled from the spec: [MainThreadModelViewShape] of
    [sqlExtHost.protocol] is not part of the excerpt. Section 6: the host
    proxy takes the outbound call [$refreshDataProvider(handle, componentId,
    itemsToRefresh?)]. The call goes over the RPC transport and is answered
    with a thenable: [refreshDataProvider] says how that thenable settles. *)
Record MainThreadModelViewShape := {
  refreshDataProvider : Z → string → option (gmap string Obj) → Promise unit
}.

Section Bridge.

Context (super : Inherited) (modelViewProxy : MainThreadModelViewShape).

(** ** [ExtHostTreeView] *)

(** Modelled from the spec: [getExtensionElement] is inherited and not part
    of the excerpt. Section 4.3: it "resolves the handle to its element"; an
    absent handle reads as [undefined], as [Map.get] does. *)
Definition getExtensionElement (v : ExtHostTreeView) (h : TreeItemHandle) : JsVal :=
  default VUndefined (elements v !! h).

(** Modelled from the spec: [clearAll] is inherited and not part of the
    excerpt. Section 4.2: "empties the cache entirely". *)
Definition clearAll (v : ExtHostTreeView) : ExtHostTreeView := set_cache ∅ ∅ v.

(** Modelled from the spec: the inherited [dispose] is not part of the
    excerpt. Section 3: the nodes are destroyed when "the tree view itself is
    disposed". *)
Definition dispose (v : ExtHostTreeView) : ExtHostTreeView := clearAll v.

(** [createTreeItem]: the base projection, written to the store, then the
    object that [Object.assign] has filled, read back. *)
Definition createTreeItem (v : ExtHostTreeView) (element : JsVal)
    (extensionTreeItem : Obj) (parent : option TreeNode) : Obj :=
  let '(σ, item) := alloc ∅ (super_createTreeItem super v element extensionTreeItem parent) in
  let '(σ, item) := assign_checked σ item extensionTreeItem in
  default ∅ (σ !! item).

(** Modelled from the spec: [createTreeNode] is inherited and not part of the
    excerpt. Section 3: a node is its display item and its parent link, its
    children "populated lazily". The display item comes from [createTreeItem],
    the extension point this file overrides. *)
Definition createTreeNode (v : ExtHostTreeView) (element : JsVal)
    (extensionTreeItem : Obj) (parent : option TreeNode) : TreeNode :=
  {| item := createTreeItem v element extensionTreeItem parent;
     parent := parent;
     children := None |}.

(** Modelled from the spec: [updateNodeCache] is inherited and not part of
    the excerpt. Section 4.2, [update]: "replaces the display item in place,
    preserves handle and parent linkage": the rebuilt node takes the place of
    the existing one under its element, and the handle index is left as it
    is. *)
Definition updateNodeCache (v : ExtHostTreeView) (element : JsVal)
    (newNode existing : TreeNode) (parentNode : option TreeNode) : ExtHostTreeView :=
  set_cache (elements v) (<[element := newNode]> (nodes v)) v.

(** Modelled from the spec: the reverse lookup [getHandle] of section 4.2,
    from an element to the handle it is known by. *)
Definition getHandle (v : ExtHostTreeView) (element : JsVal) : option TreeItemHandle :=
  (λ found, found.2.1) <$>
    list_find (λ entry, entry.2 = element) (map_to_list (elements v)).

(** Modelled from the spec: [getHandlesToRefresh] is inherited and not part
    of the excerpt. Section 4.3: "refreshed elements whose handle lookup fails
    are silently dropped". *)
Definition getHandlesToRefresh (v : ExtHostTreeView) (els : list JsVal)
    : list TreeItemHandle :=
  omap (getHandle v) els.

Definition onNodeCheckedChanged (v : ExtHostTreeView)
    (parentHandle : option TreeItemHandle) (checked : JsVal)
    : ExtHostTreeView * Completion unit :=
  let parentElement :=
    match parentHandle with
    | Some h => if truthy (VStr h) then getExtensionElement v h else VUndefined
    | None => VUndefined
    end in
  let v :=
    match parentHandle with
    | Some h =>
        if truthy (VStr h) && negb (truthy parentElement)
        then emit (ConsoleError ("No tree item with id '" +:+ h +:+ "' found.")) v
        else v
    | None => v
    end in
  let v := emit (NodeCheckedChanged parentElement checked) v in
  (v, match sqlops.onNodeCheckedChanged (componentDataProvider v) parentElement checked with
      | None => Normal ()
      | Some e => Thrown e
      end).

Definition reveal (v : ExtHostTreeView) (element : JsVal) (options : option bool)
    : ExtHostTreeView * Promise unit :=
  match sqlops.getParent (componentDataProvider v) with
  | None =>
      (v, Rejected (Error
        "Required registered TreeDataProvider to implement 'getParent' method to access 'reveal' method"))
  | Some _ =>
      let '(v, chain) := resolveUnknownParentChain super v element in
      match chain with
      | Rejected e => (v, Rejected e)
      | Resolved parentChain =>
          let '(v, treeNode) := resolveTreeNode super v element (last parentChain) in
          match treeNode with
          | Rejected e => (v, Rejected e)
          | Resolved _ => (v, Resolved ())
          end
      end
  end.

(** One call of [refreshNode] between its two halves: what the synchronous
    part has looked up, and the promise of the provider call. *)
Record Fetch := {
  f_handle : TreeItemHandle;
  f_element : JsVal;
  f_existing : option TreeNode;
  f_promise : Promise (option Obj)
}.

(** [refreshNode], up to the provider call: the element and its existing node
    are looked up, then the provider is asked. *)
Definition refreshNode_start (v : ExtHostTreeView) (treeItemHandle : TreeItemHandle)
    : ExtHostTreeView * Fetch :=
  let extElement := getExtensionElement v treeItemHandle in
  let existing := nodes v !! extElement in
  (emit (GetTreeItem extElement) v,
   {| f_handle := treeItemHandle;
      f_element := extElement;
      f_existing := existing;
      f_promise := asWinJsPromise (sqlops.getTreeItem (componentDataProvider v) extElement) |}).

(** [refreshNode], the continuation of the provider call, on the cache as it
    is when the call has settled. [existing.parent] is read only once an item
    has come back, and throws when there is no existing node. *)
Definition refreshNode_then (v : ExtHostTreeView) (f : Fetch)
    : ExtHostTreeView * Promise (option TreeNode) :=
  match f_promise f with
  | Rejected e => (v, Rejected e)
  | Resolved None => (v, Resolved None)
  | Resolved (Some extTreeItem) =>
      match f_existing f with
      | None => (v, Rejected (TypeError "Cannot read property 'parent' of undefined"))
      | Some existing =>
          let newNode := createTreeNode v (f_element f) extTreeItem (parent existing) in
          let v := updateNodeCache v (f_element f) newNode existing (parent existing) in
          (v, Resolved (Some newNode))
      end
  end.

(** [refreshNode] when nothing else runs between its two halves. *)
Definition refreshNode (v : ExtHostTreeView) (treeItemHandle : TreeItemHandle)
    : ExtHostTreeView * Promise (option TreeNode) :=
  let '(v, f) := refreshNode_start v treeItemHandle in
  refreshNode_then v f.

(** The promises handed to [TPromise.join] in [refreshHandles], as far as they
    have settled: the view, the [itemsToRefresh] object, and the errors of the
    promises that rejected. *)
Record Joined := {
  j_view : ExtHostTreeView;
  j_items : gmap string Obj;
  j_errors : list JsError
}.

(** One promise of the join settles: the continuation of [refreshNode], then
    the one that records the item of the node under the handle. *)
Definition refresh_one (j : Joined) (f : Fetch) : Joined :=
  let '(v, node) := refreshNode_then (j_view j) f in
  match node with
  | Resolved (Some node) =>
      {| j_view := v; j_items := <[f_handle f := item node]> (j_items j);
         j_errors := j_errors j |}
  | Resolved None => {| j_view := v; j_items := j_items j; j_errors := j_errors j |}
  | Rejected e => {| j_view := v; j_items := j_items j; j_errors := j_errors j ++ [e] |}
  end.

(** [itemHandles.map(...)]: the synchronous half of every [refreshNode], in the
    order of the handles. *)
Definition start_one (acc : ExtHostTreeView * list Fetch)
    (treeItemHandle : TreeItemHandle) : ExtHostTreeView * list Fetch :=
  let '(v, f) := refreshNode_start acc.1 treeItemHandle in (v, acc.2 ++ [f]).

Definition start_all (v : ExtHostTreeView) (itemHandles : list TreeItemHandle)
    : ExtHostTreeView * list Fetch :=
  foldl start_one (v, []) itemHandles.

(** [refreshHandles]. [schedule] lists the positions of the promises in the
    order in which they settle. Modelled from the spec: [TPromise.join] of
    [vs/base/common/winjs.base] is not part of the excerpt; it settles once
    all its promises have (section 5: "only ever observed post-join"), and
    the continuation after it runs only when none of them has rejected. That
    continuation returns [null], or the thenable of the call to the host: the
    promise of [refreshHandles] then settles as the host's answer does. *)
Definition refreshHandles (v : ExtHostTreeView) (itemHandles : list TreeItemHandle)
    (schedule : list nat) : ExtHostTreeView * Promise unit :=
  let '(v1, fetches) := start_all v itemHandles in
  let settled := omap (λ i, fetches !! i) schedule in
  let j := foldl refresh_one {| j_view := v1; j_items := ∅; j_errors := [] |} settled in
  match j_errors j with
  | [] =>
      if decide (size (j_items j) = 0%nat)
      then (j_view j, Resolved ())
      else (emit (RefreshDataProvider (handle v) (componentId v) (Some (j_items j)))
              (j_view j),
            refreshDataProvider modelViewProxy (handle v) (componentId v)
              (Some (j_items j)))
  | errors => (j_view j, Rejected (JoinError errors))
  end.

(** [refresh]. The promise of [refreshHandles] is not looked at; [schedule] is
    the order in which its provider calls settle. *)
Definition refresh (v : ExtHostTreeView) (els : list JsVal) (schedule : list nat)
    : ExtHostTreeView :=
  let hasRoot := existsb (λ element, negb (truthy element)) els in
  if hasRoot
  then emit (RefreshDataProvider (handle v) (componentId v) None) (clearAll v)
  else
    let handlesToRefresh := getHandlesToRefresh v els in
    if decide (length handlesToRefresh = 0%nat) then v
    else (refreshHandles v handlesToRefresh schedule).1.

(** ** [ExtHostModelViewTreeViews]

    The methods the host calls, [$createTreeView], [$getChildren] and
    [$onNodeCheckedChanged], are written [host_createTreeView],
    [host_getChildren] and [host_onNodeCheckedChanged]. *)

(** The [treeViews] map holds references; [objects] is the store of the tree
    view objects they point to. *)
Record ExtHostModelViewTreeViews := {
  treeViews : gmap string positive;
  objects : gmap positive ExtHostTreeView
}.

Record CreateOptions := { treeDataProvider : option sqlops.TreeComponentDataProvider }.

(** The object [host_createTreeView] returns: its two closures share the
    captured [treeView] and [componentId]. *)
Record TreeView := {
  captured_treeView : positive;
  captured_componentId : string
}.

(** Modelled from the spec: the inherited constructor is not part of the
    excerpt. Section 3: a node is created "the first time its element is
    fetched", so a new tree view has an empty cache; it has done nothing
    yet. *)
Definition new_ExtHostTreeView (handle : Z) (componentId : string)
    (dataProvider : sqlops.TreeComponentDataProvider) : ExtHostTreeView :=
  {| handle := handle; componentId := componentId;
     componentDataProvider := dataProvider;
     elements := ∅; nodes := ∅; trace := [] |}.

#[global] Instance ExtHostTreeView_inhabited : Inhabited ExtHostTreeView :=
  populate (new_ExtHostTreeView 0 ""
    {| sqlops.getTreeItem := λ _, Returns None; sqlops.getParent := None;
       sqlops.onNodeCheckedChanged := λ _ _, None |}).

(** The key of the template literal [`${handle}-${id}`]: the handle is an
    integer and is written in decimal. *)
Definition registry_key (handle : Z) (id : string) : string :=
  pretty handle +:+ "-" +:+ id.

Definition createExtHostTreeViewer (host : ExtHostModelViewTreeViews)
    (handle : Z) (id : string) (dataProvider : sqlops.TreeComponentDataProvider)
    : ExtHostModelViewTreeViews * positive :=
  let treeView := fresh (dom (objects host)) in
  ({| treeViews := <[registry_key handle id := treeView]> (treeViews host);
      objects := <[treeView := new_ExtHostTreeView handle id dataProvider]> (objects host) |},
   treeView).

Definition host_createTreeView (host : ExtHostModelViewTreeViews)
    (handle : Z) (componentId : string) (options : option CreateOptions)
    : ExtHostModelViewTreeViews * Completion TreeView :=
  match options ≫= treeDataProvider with
  | None => (host, Thrown (Error "Options with treeDataProvider is mandatory"))
  | Some dataProvider =>
      let '(host, treeView) := createExtHostTreeViewer host handle componentId dataProvider in
      (host, Normal {| captured_treeView := treeView;
                       captured_componentId := componentId |})
  end.

(** Running a method of the tree view object behind a reference. *)
Definition on_object {A} (host : ExtHostModelViewTreeViews) (ref : positive)
    (method : ExtHostTreeView → ExtHostTreeView * A) : ExtHostModelViewTreeViews * A :=
  let '(v, result) := method (objects host !!! ref) in
  ({| treeViews := treeViews host; objects := <[ref := v]> (objects host) |}, result).

(** The [reveal] closure of the returned object. *)
Definition TreeView_reveal (host : ExtHostModelViewTreeViews) (tv : TreeView)
    (element : JsVal) (options : option bool)
    : ExtHostModelViewTreeViews * Promise unit :=
  on_object host (captured_treeView tv) (λ v, reveal v element options).

(** The [dispose] closure of the returned object. *)
Definition TreeView_dispose (host : ExtHostModelViewTreeViews) (tv : TreeView)
    : ExtHostModelViewTreeViews :=
  let host := {| treeViews := delete (captured_componentId tv) (treeViews host);
                 objects := objects host |} in
  (on_object host (captured_treeView tv) (λ v, (dispose v, ()))).1.

(** Modelled from the spec: [localize] of [vs/nls] is not part of the
    excerpt. Section 7: the message names "the offending view id": the
    placeholder of the default message is replaced by the argument. *)
Fixpoint localize (message : string) (arg : string) : string :=
  match message with
  | String "{"%char (String "0"%char (String "}"%char rest)) => arg +:+ localize rest arg
  | String c rest => String c (localize rest arg)
  | EmptyString => EmptyString
  end.

Definition host_getChildren (host : ExtHostModelViewTreeViews)
    (treeViewId : string) (treeItemHandle : option TreeItemHandle)
    : ExtHostModelViewTreeViews * Promise (list Obj) :=
  match treeViews host !! treeViewId with
  | None =>
      (host, Rejected (Error
        (localize "No tree view with id '{0}' registered." treeViewId)))
  | Some treeView =>
      on_object host treeView (λ v, super_getChildren super v treeItemHandle)
  end.

Definition host_onNodeCheckedChanged (host : ExtHostModelViewTreeViews)
    (treeViewId : string) (treeItemHandle : option TreeItemHandle) (checked : JsVal)
    : ExtHostModelViewTreeViews * Completion unit :=
  match treeViews host !! treeViewId with
  | Some treeView =>
      on_object host treeView (λ v, onNodeCheckedChanged v treeItemHandle checked)
  | None => (host, Normal ())
  end.

(** ** Notions used in the statements *)

(** The calls to the host in a trace. *)
Definition is_host_call (ev : Event) : bool :=
  match ev with
  | RefreshDataProvider _ _ _ => true
  | _ => false
  end.

Definition host_calls (t : list Event) : list Event :=
  filter (λ ev, is_host_call ev = true) t.

(** The tree item the provider hands back for an element, once settled. *)
Definition fetched (v : ExtHostTreeView) (element : JsVal) : Promise (option Obj) :=
  asWinJsPromise (sqlops.getTreeItem (componentDataProvider v) element).

(** The fetch that [refreshNode] starts for a handle on a given tree view. *)
Definition fetch_of (v : ExtHostTreeView) (h : TreeItemHandle) : Fetch :=
  (refreshNode_start v h).2.

(** A tree view after a run of events. *)
Definition emits (evs : list Event) (v : ExtHostTreeView) : ExtHostTreeView :=
  {| handle := handle v; componentId := componentId v;
     componentDataProvider := componentDataProvider v;
     elements := elements v; nodes := nodes v;
     trace := trace v ++ evs |}.

End Bridge.

End ModelViewTree.

(** * Concrete instances

    A registry, a provider and a tree view on which the model is run. *)

Module Fixtures.
Import QuickOpen ModelViewTree.

Definition entry_foo : SymbolInformation :=
  {| kind := 11;
     location := {| uri := "file:///a.sql";
                    range := {| startLineNumber := 3; startColumn := 1;
                                endLineNumber := 3; endColumn := 9 |} |};
     name := "foo";
     containerName := Some "pkg" |}.

Definition entry_bar : SymbolInformation :=
  {| kind := 5;
     location := {| uri := "file:///a.sql";
                    range := {| startLineNumber := 1; startColumn := 4;
                                endLineNumber := 2; endColumn := 1 |} |};
     name := "bar";
     containerName := None |}.

(** Four providers: one returns two entries, one rejects, one returns
    [null], one throws. *)
Definition four_providers : LanguageFeatureRegistry unit :=
  {| all := λ _,
       [ {| provideDocumentSymbols := λ _, Returns (PArray [entry_foo; entry_bar]) |};
         {| provideDocumentSymbols := λ _, RejectsWith (Error "provider B failed") |};
         {| provideDocumentSymbols := λ _, ResolvesTo (PNotArray VNull) |};
         {| provideDocumentSymbols := λ _, Throws (TypeError "provider D threw") |} ] |}.

(** The scenario of section 8: provider A returns one entry, provider B
    rejects. *)
Definition two_providers : LanguageFeatureRegistry unit :=
  {| all := λ _,
       [ {| provideDocumentSymbols := λ _, ResolvesTo (PArray [entry_foo]) |};
         {| provideDocumentSymbols := λ _, RejectsWith (Error "provider B failed") |} ] |}.

(** A base projection that keeps the label and derives a handle from it. *)
Definition label_projection : Inherited :=
  {| super_createTreeItem := λ v element extensionTreeItem parent,
       {[ "handle" := VStr "0/0:item"; "label" := get_prop extensionTreeItem "label" ]};
     super_getChildren := λ v h, (v, Resolved []);
     resolveUnknownParentChain := λ v element, (v, Resolved []);
     resolveTreeNode := λ v element parent,
       (v, Resolved {| item := ∅; parent := parent; children := None |}) |}.

(** A provider without [getParent]: it has an item for ["a"], none for
    ["b"], and throws for ["c"]. *)
Definition abc_provider : sqlops.TreeComponentDataProvider :=
  {| sqlops.getTreeItem := λ element,
       match element with
       | VStr "a" => Returns (Some {[ "label" := VStr "A"; "checked" := VBool true ]})
       | VStr "b" => Returns None
       | VStr "c" => Throws (Error "no item")
       | _ => Returns (Some ∅)
       end;
     sqlops.getParent := None;
     sqlops.onNodeCheckedChanged := λ _ _, None |}.

Definition root_node : TreeNode :=
  {| item := {[ "handle" := VStr "h0" ]}; parent := None; children := Some ["h1"; "h2"; "h3"] |}.

Definition leaf_node (h : string) : TreeNode :=
  {| item := {[ "handle" := VStr h ]}; parent := Some root_node; children := None |}.

Definition abc_view : ExtHostTreeView :=
  {| handle := 7; componentId := "tree"; componentDataProvider := abc_provider;
     elements := {[ "h1" := VStr "a"; "h2" := VStr "b"; "h3" := VStr "c" ]};
     nodes := {[ VStr "a" := leaf_node "h1"; VStr "b" := leaf_node "h2";
                 VStr "c" := leaf_node "h3" ]};
     trace := [] |}.

Definition empty_host : ExtHostModelViewTreeViews :=
  {| treeViews := ∅; objects := ∅ |}.

(** A host that acknowledges every call. *)
Definition accepting_proxy : MainThreadModelViewShape :=
  {| refreshDataProvider := λ _ _ _, Resolved () |}.

End Fixtures.

(** * Part III: the command [_executeDocumentSymbolProvider] (quickOpen.ts) *)

Module DocumentSymbolCommand.
Import QuickOpen ModelViewTree.

(** The [resource] member of the command's arguments: a [URI], or anything
    for which [instanceof URI] is false (a missing member is [undefined]). *)
Inductive Resource :=
  | IsURI (uri : string)
  | NotURI (v : JsVal).

Record CommandArgs := { resource : Resource }.

(** Modelled from the spec: [illegalArgument] of [vs/base/common/errors] is
    not part of the excerpt. Section 7: an invalid-argument error with "a
    human-readable message identifying the offending ... resource". *)
Definition illegalArgument (name : string) : JsError :=
  Error ("Illegal argument: " +:+ name).

Section Command.

Context {ITextModel : Type}.

(** [IModelService]: the one member the command calls; [None] is [null]. *)
Record IModelService := { getModel : string → option ITextModel }.

(** The handler registered for [_executeDocumentSymbolProvider]. It throws
    before any provider is called, or returns what [getDocumentSymbols]
    returns. *)
Definition executeDocumentSymbolProvider (registry : LanguageFeatureRegistry ITextModel)
    (accessor : IModelService) (args : CommandArgs) (schedule : list nat)
    : Completion (Promise IOutline * list JsError) :=
  match resource args with
  | NotURI _ => Thrown (illegalArgument "resource")
  | IsURI uri =>
      match getModel accessor uri with
      | None => Thrown (illegalArgument "resource")
      | Some model => Normal (getDocumentSymbols registry model schedule)
      end
  end.

End Command.

Arguments IModelService : clear implicits.

End DocumentSymbolCommand.

(** * Further notions for the tree-view bridge *)

Module ModelViewTreeNotions.
Import ModelViewTree.

(** The error with which the promise of one [refreshNode] rejects, if it
    does: the provider's, or the one thrown on [existing.parent]. *)
Definition fetch_error (f : Fetch) : option JsError :=
  match f_promise f with
  | Rejected e => Some e
  | Resolved None => None
  | Resolved (Some _) =>
      match f_existing f with
      | None => Some (TypeError "Cannot read property 'parent' of undefined")
      | Some _ => None
      end
  end.

(** Whether one [refreshNode] resolves to a node. *)
Definition fetch_yields (f : Fetch) : bool :=
  match f_promise f, f_existing f with
  | Resolved (Some _), Some _ => true
  | _, _ => false
  end.

(** Every registration points to a tree view object, and the key it is
    stored under is the key of that object's own handle and component id. *)
Definition registered_consistent (host : ExtHostModelViewTreeViews) : Prop :=
  ∀ key ref, treeViews host !! key = Some ref →
    ∃ v, objects host !! ref = Some v
         ∧ key = registry_key (handle v) (componentId v).

Definition is_digit (c : ascii) : bool :=
  match c with
  | "0" | "1" | "2" | "3" | "4" | "5" | "6" | "7" | "8" | "9" => true
  | _ => false
  end%char.

Fixpoint all_digits (s : string) : bool :=
  match s with
  | EmptyString => true
  | String c s => is_digit c && all_digits s
  end.

End ModelViewTreeNotions.

(** * Further concrete instances *)

Module MoreFixtures.
Import QuickOpen ModelViewTree DocumentSymbolCommand Fixtures.

(** A model service that knows one document. *)
Definition one_document : IModelService unit :=
  {| getModel := λ uri, if String.eqb uri "file:///a.sql" then Some () else None |}.

(** A host whose answer to every call is a rejection. *)
Definition rejecting_proxy : MainThreadModelViewShape :=
  {| refreshDataProvider := λ _ _ _, Rejected (Error "host is gone") |}.

(** A tree view whose cache holds the falsy element [0] under handle
    ["h0"]. *)
Definition zero_view : ExtHostTreeView :=
  {| handle := 3; componentId := "zero"; componentDataProvider := abc_provider;
     elements := {[ "h0" := VNum 0 ]};
     nodes := {[ VNum 0 := root_node ]};
     trace := [] |}.

End MoreFixtures.

(** * Facts about lists and schedules *)

Module ScheduleFacts.

Lemma omap_lookup_seq {A} (l k : list A) :
  omap (λ i, (k ++ l) !! i) (seq (length k) (length l)) = l.
Proof.
  revert k. induction l as [|x l IH]; intros k; simpl; [done |].
  rewrite list_lookup_middle by done. f_equal.
  specialize (IH (k ++ [x])). rewrite <- app_assoc, length_app in IH. simpl in IH.
  by rewrite Nat.add_1_r in IH.
Qed.

Lemma omap_schedule {A} (l : list A) schedule :
  schedule ≡ₚ seq 0 (length l) → omap (λ i, l !! i) schedule ≡ₚ l.
Proof.
  intros ->. pose proof (omap_lookup_seq l []) as H. simpl in H. by rewrite H.
Qed.

Lemma list_eq_nil_elem {A} (l : list A) : (∀ x, x ∉ l) → l = [].
Proof.
  destruct l as [|x l]; [done |]. intros Hnot. destruct (Hnot x). apply list_elem_of_here.
Qed.

End ScheduleFacts.

(** * Properties of the symbol aggregator *)

Module QuickOpenProps.
Import QuickOpen Fixtures ScheduleFacts.

Lemma flatten_unfold bucket entries override :
  flatten bucket entries override = bucket ++ map (flat_entry override) entries.
Proof.
  unfold flatten. revert bucket.
  induction entries as [|entry entries IH]; intros bucket; simpl.
  - by rewrite app_nil_r.
  - rewrite IH. by rewrite <- app_assoc.
Qed.

Lemma or_label_own s override : s ≠ "" → or_label (Some s) override = s.
Proof.
  intros Hs. unfold or_label. simpl.
  destruct (String.eqb_spec s ""); [done | reflexivity].
Qed.

Lemma cmp_le_start_le a b : cmp_le compareEntriesUsingStart a b ↔ start_le a b.
Proof.
  unfold cmp_le, compareEntriesUsingStart, compareRangesUsingStarts, lift, start_le.
  simpl. destruct (Z.eqb_spec (startLineNumber (range (location a)))
                              (startLineNumber (range (location b)))); lia.
Qed.

Lemma cmp_le_total : Total (cmp_le compareEntriesUsingStart).
Proof. intros a b. rewrite !cmp_le_start_le. unfold start_le. simpl. lia. Qed.

Lemma cmp_le_trans : Transitive (cmp_le compareEntriesUsingStart).
Proof. intros a b c. rewrite !cmp_le_start_le. unfold start_le. simpl. lia. Qed.

Lemma array_sort_sorted l : StronglySorted start_le (array_sort compareEntriesUsingStart l).
Proof.
  unfold array_sort.
  pose proof (@StronglySorted_merge_sort _ (cmp_le compareEntriesUsingStart) _
                cmp_le_trans cmp_le_total l) as Hs.
  induction Hs as [|x l' Hs IH Hall]; constructor; [done |].
  eapply Forall_impl; [exact Hall |]. intros y Hy. by apply cmp_le_start_le.
Qed.

Lemma array_sort_perm cmp l : array_sort cmp l ≡ₚ l.
Proof. apply merge_sort_Permutation. Qed.

Lemma foldl_on_settled st settled :
  acc_entries (foldl on_settled st settled)
    = acc_entries st ++ (settled ≫= provided_array)
  ∧ acc_sink (foldl on_settled st settled)
    = acc_sink st ++ (settled ≫= reported_error).
Proof.
  revert st. induction settled as [|p settled IH]; intros st; simpl.
  - by rewrite !app_nil_r.
  - destruct (IH (on_settled st p)) as [-> ->].
    destruct p as [[result|v]|err]; simpl; unfold onUnexpectedExternalError;
      rewrite <- ?app_assoc; done.
Qed.

Lemma bind_not_failed (promises : list (Promise Provided)) :
  filter (λ p, provider_failed p = false) promises ≫= provided_array
  = promises ≫= provided_array.
Proof.
  induction promises as [|p promises IH]; [done |].
  rewrite filter_cons. destruct (decide (provider_failed p = false)) as [Hp|Hp].
  - by rewrite !bind_cons, IH.
  - rewrite bind_cons, IH. by destruct p as [[result|v]|err].
Qed.

(** C9. [flatten] keeps what the bucket held and appends one entry per input
    entry, in order. The appended entry has the kind, location and name of its
    input entry; its container name is the entry's own when that is a
    non-empty string, and the override label when it is omitted or empty. *)
Theorem flatten_preserves_fields_and_container
    (bucket entries : list SymbolInformation) (override : string)
    (i : nat) (entry : SymbolInformation) :
  entries !! i = Some entry →
  ∃ out,
    flatten bucket entries override !! (length bucket + i)%nat = Some out
    ∧ kind out = kind entry
    ∧ location out = location entry
    ∧ name out = name entry
    ∧ (∀ s, containerName entry = Some s → s ≠ "" → containerName out = Some s)
    ∧ (containerName entry = None ∨ containerName entry = Some "" →
       containerName out = Some override)
    ∧ length (flatten bucket entries override) = (length bucket + length entries)%nat
    ∧ take (length bucket) (flatten bucket entries override) = bucket.
Proof.
  intros Hi. rewrite flatten_unfold. exists (flat_entry override entry).
  split.
  { rewrite lookup_app_r by lia.
    replace (length bucket + i - length bucket)%nat with i by lia.
    by rewrite list_lookup_fmap, Hi. }
  repeat split; try done.
  - intros s Hs Hne. simpl. rewrite Hs. by rewrite or_label_own.
  - intros [Hnone|Hempty]; simpl; [by rewrite Hnone | by rewrite Hempty].
  - by rewrite length_app, length_map.
  - by rewrite take_app_length.
Qed.

Lemma flatten_preserves_fields_and_container_witness :
  [entry_foo; entry_bar] !! 1%nat = Some entry_bar
  ∧ ∃ out,
      flatten [entry_foo] [entry_foo; entry_bar] "top" !! 2%nat = Some out
      ∧ kind out = 5
      ∧ location out = location entry_bar
      ∧ name out = "bar"
      ∧ (∀ s, containerName entry_bar = Some s → s ≠ "" → containerName out = Some s)
      ∧ (containerName entry_bar = None ∨ containerName entry_bar = Some "" →
         containerName out = Some "top")
      ∧ length (flatten [entry_foo] [entry_foo; entry_bar] "top") = 3%nat
      ∧ take 1 (flatten [entry_foo] [entry_foo; entry_bar] "top") = [entry_foo].
Proof.
  split; [reflexivity |].
  apply (flatten_preserves_fields_and_container
           [entry_foo] [entry_foo; entry_bar] "top" 1 entry_bar).
  reflexivity.
Defined.

(** C1. Whatever the order in which the provider calls settle,
    [getDocumentSymbols] fulfils: its entries are, up to order, the flattened
    entries of the arrays returned by the providers whose call neither threw,
    rejected nor produced a non-array (the other n-k of the n providers), they
    are sorted by range start position, and the errors of the failed calls
    reach the unexpected-error sink and nothing else. *)
Theorem getDocumentSymbols_union_of_successes {ITextModel : Type}
    (registry : LanguageFeatureRegistry ITextModel) (model : ITextModel)
    (schedule : list nat) :
  let promises :=
    map (λ support, asWinJsPromise (provideDocumentSymbols support model))
        (all registry model) in
  let succeeded := filter (λ p, provider_failed p = false) promises in
  let failed := filter (λ p, provider_failed p = true) promises in
  schedule ≡ₚ seq 0 (length promises) →
  ∃ outline,
    (getDocumentSymbols registry model schedule).1 = Resolved outline
    ∧ entries outline ≡ₚ map (flat_entry "") (succeeded ≫= provided_array)
    ∧ StronglySorted start_le (entries outline)
    ∧ (length succeeded + length failed)%nat = length promises
    ∧ (getDocumentSymbols registry model schedule).2 ≡ₚ failed ≫= reported_error.
Proof.
  intros promises succeeded failed Hsched.
  unfold getDocumentSymbols. fold promises.
  set (settled := omap (λ i, promises !! i) schedule).
  assert (Hsettled : settled ≡ₚ promises) by (by apply omap_schedule).
  destruct (foldl_on_settled {| acc_entries := []; acc_sink := [] |} settled)
    as [Hentries Hsink]. simpl in Hentries, Hsink.
  eexists. split; [reflexivity |]. simpl. repeat split.
  - rewrite array_sort_perm, Hentries, flatten_unfold. simpl.
    apply fmap_Permutation. unfold succeeded.
    rewrite bind_not_failed. by rewrite Hsettled.
  - apply array_sort_sorted.
  - unfold succeeded, failed.
    rewrite <- (length_app (filter _ promises) (filter _ promises)).
    apply Permutation_length.
    rewrite <- (filter_app_complement (λ p, provider_failed p = false) promises) at 3.
    apply Permutation_app; [done |].
    rewrite (list_filter_iff (λ p, provider_failed p = true)
               (λ p, ¬ provider_failed p = false)); [done |].
    intros p. destruct (provider_failed p); split; try done.
  - rewrite Hsink, Hsettled. unfold failed.
    clear. induction promises as [|p promises IH]; [done |].
    rewrite filter_cons, bind_cons.
    destruct (decide (provider_failed p = true)) as [Hp|Hp].
    + by rewrite bind_cons, IH.
    + rewrite IH. by destruct p as [[result|v]|err].
Qed.

Lemma getDocumentSymbols_union_of_successes_witness :
  [3; 1; 0; 2]%nat ≡ₚ seq 0 4
  ∧ ∃ outline,
      (getDocumentSymbols four_providers () [3; 1; 0; 2]%nat).1 = Resolved outline
      ∧ entries outline ≡ₚ map (flat_entry "") [entry_foo; entry_bar]
      ∧ StronglySorted start_le (entries outline)
      ∧ (getDocumentSymbols four_providers () [3; 1; 0; 2]%nat).2
        ≡ₚ [Error "provider B failed"; TypeError "provider D threw"].
Proof.
  assert (Hperm : [3; 1; 0; 2]%nat ≡ₚ seq 0 4).
  { apply (bool_decide_unpack _). vm_compute. exact I. }
  split; [exact Hperm |].
  destruct (getDocumentSymbols_union_of_successes four_providers () [3; 1; 0; 2]%nat Hperm)
    as (outline & Hres & Hunion & Hsorted & _ & Hsink).
  exists outline. split_and!; [exact Hres | exact Hunion | exact Hsorted | exact Hsink].
Defined.

(** The scenario of section 8: provider A returns one entry, provider B
    rejects; the outline holds that entry and nothing is thrown. *)
Example getDocumentSymbols_one_rejects :
  getDocumentSymbols two_providers () [1; 0]%nat
  = (Resolved {| entries := [flat_entry "" entry_foo] |}, [Error "provider B failed"]).
Proof. reflexivity. Qed.

Example getDocumentSymbols_sorts_by_start :
  map name (match (getDocumentSymbols four_providers () [0; 1; 2; 3]%nat).1 with
            | Resolved outline => entries outline
            | Rejected _ => []
            end)
  = ["bar"; "foo"].
Proof. reflexivity. Qed.

End QuickOpenProps.

(** * Properties of the tree-view bridge *)

Module ModelViewTreeProps.
Import ModelViewTree Fixtures ScheduleFacts.

Lemma append_length (a b : string) :
  String.length (a +:+ b) = (String.length a + String.length b)%nat.
Proof. induction a as [|c a IH]; simpl; [done | by rewrite IH]. Qed.

Lemma registry_key_fresh (handle : Z) (id : string) : registry_key handle id ≠ id.
Proof.
  unfold registry_key. intros Heq.
  apply (f_equal String.length) in Heq.
  rewrite !append_length in Heq. simpl in Heq. lia.
Qed.

Lemma alloc_fresh (σ : Store) (o : Obj) :
  σ !! (alloc σ o).2 = None
  ∧ (alloc σ o).1 !! (alloc σ o).2 = Some o
  ∧ ∀ l, is_Some (σ !! l) → (alloc σ o).1 !! l = σ !! l.
Proof.
  unfold alloc. simpl.
  assert (Hfresh : σ !! fresh (dom σ) = None).
  { apply not_elem_of_dom. apply is_fresh. }
  split; [done |]. split; [by rewrite lookup_insert_eq |].
  intros l Hl. rewrite lookup_insert_ne; [done |].
  intros <-. rewrite Hfresh in Hl. by destruct Hl.
Qed.

(** What [assign_checked] does to a store that holds the base item. *)
Lemma assign_checked_store (σ : Store) (item : positive) (base extensionTreeItem : Obj) :
  σ !! item = Some base →
  ∃ σ' target,
    assign_checked σ item extensionTreeItem = (σ', target)
    ∧ σ !! target = None
    ∧ σ' !! target = Some (<["checked" := get_prop extensionTreeItem "checked"]> base)
    ∧ ∀ l, is_Some (σ !! l) → σ' !! l = σ !! l.
Proof.
  intros Hitem. unfold assign_checked.
  destruct (alloc_fresh σ ∅) as (Ht1 & Ht2 & Ht3).
  destruct (alloc σ ∅) as [σ1 target]. simpl in Ht1, Ht2, Ht3. cbv beta iota.
  destruct (alloc_fresh σ1 {[ "checked" := get_prop extensionTreeItem "checked" ]})
    as (Hs1 & Hs2 & Hs3).
  destruct (alloc σ1 {[ "checked" := get_prop extensionTreeItem "checked" ]})
    as [σ2 source]. simpl in Hs1, Hs2, Hs3. cbv beta iota.
  assert (Hitem1 : σ1 !! item = Some base) by (rewrite Ht3; eauto).
  assert (Hne_ti : target ≠ item) by congruence.
  assert (Hne_st : source ≠ target) by congruence.
  assert (Hne_si : source ≠ item) by congruence.
  assert (Hitem2 : σ2 !! item = Some base) by (rewrite Hs3; eauto).
  assert (Htarget2 : σ2 !! target = Some ∅) by (rewrite Hs3; eauto).
  eexists _, target. split; [reflexivity |]. split; [done |].
  unfold Object_assign. simpl. rewrite Hitem2, Htarget2.
  rewrite lookup_insert_ne by done. rewrite Hs2, lookup_insert_eq.
  split.
  - rewrite lookup_insert_eq. f_equal.
    rewrite (right_id_L ∅ (∪)). by rewrite insert_union_singleton_l.
  - intros l Hl. assert (l ≠ target) by (intros ->; rewrite Ht1 in Hl; by destruct Hl).
    rewrite !lookup_insert_ne by done.
    rewrite Hs3 by (rewrite Ht3; eauto). by rewrite Ht3.
Qed.

Section BridgeProps.

Context (super : Inherited) (modelViewProxy : MainThreadModelViewShape).

Lemma createTreeItem_unfold v element extensionTreeItem parent :
  createTreeItem super v element extensionTreeItem parent
  = <["checked" := get_prop extensionTreeItem "checked"]>
      (super_createTreeItem super v element extensionTreeItem parent).
Proof.
  unfold createTreeItem.
  set (base := super_createTreeItem super v element extensionTreeItem parent).
  destruct (alloc_fresh ∅ base) as (_ & Hb & _).
  destruct (alloc ∅ base) as [σ item]. simpl in Hb.
  destruct (assign_checked_store σ item base extensionTreeItem Hb)
    as (σ' & target & -> & _ & Ht & _).
  by rewrite Ht.
Qed.

Lemma getHandle_Some v element h :
  getHandle v element = Some h → elements v !! h = Some element.
Proof.
  unfold getHandle. intros Hfound.
  apply fmap_Some in Hfound as ([i [h' e']] & Hfind & ->).
  apply list_find_Some in Hfind as (Hlook & Heq & _). simpl in *. subst e'.
  apply elem_of_map_to_list. eapply list_elem_of_lookup_2. exact Hlook.
Qed.

Lemma getHandle_None v element :
  getHandle v element = None ↔ ∀ h, elements v !! h ≠ Some element.
Proof.
  unfold getHandle. rewrite fmap_None, list_find_None, Forall_forall. split.
  - intros Hall h Hh. apply (Hall (h, element)); [| done].
    by apply elem_of_map_to_list.
  - intros Hnone [h e] Hin Heq. simpl in Heq. subst e.
    apply elem_of_map_to_list in Hin. by apply (Hnone h).
Qed.

(** The continuation of [refreshNode]: what it returns and what it leaves
    behind. *)
Lemma refreshNode_then_spec v f :
  ∃ v' r,
    refreshNode_then super v f = (v', r)
    ∧ (elements v' = elements v
       ∧ handle v' = handle v
       ∧ componentId v' = componentId v
       ∧ componentDataProvider v' = componentDataProvider v
       ∧ trace v' = trace v)
    ∧ match f_promise f with
      | Resolved (Some extTreeItem) =>
          match f_existing f with
          | Some existing =>
              ∃ newNode,
                r = Resolved (Some newNode)
                ∧ parent newNode = parent existing
                ∧ item newNode
                  = createTreeItem super v (f_element f) extTreeItem (parent existing)
                ∧ nodes v' = <[f_element f := newNode]> (nodes v)
          | None =>
              r = Rejected (TypeError "Cannot read property 'parent' of undefined")
              ∧ nodes v' = nodes v
          end
      | Resolved None => r = Resolved None ∧ nodes v' = nodes v
      | Rejected err => r = Rejected err ∧ nodes v' = nodes v
      end.
Proof.
  unfold refreshNode_then.
  destruct (f_promise f) as [[extTreeItem|]|err].
  - destruct (f_existing f) as [existing|].
    + eexists _, _. split; [reflexivity |]. simpl. split; [by split_and! |].
      eexists. by split_and!.
    + eexists _, _. split; [reflexivity |]. by split_and!.
  - eexists _, _. split; [reflexivity |]. by split_and!.
  - eexists _, _. split; [reflexivity |]. by split_and!.
Qed.

Lemma emit_emits ev evs v : emit ev (emits evs v) = emits (evs ++ [ev]) v.
Proof. unfold emit, emits. simpl. by rewrite <- app_assoc. Qed.

(** The synchronous halves only add to the trace. *)
Lemma start_all_spec v hs :
  start_all v hs
  = (emits (map GetTreeItem (map (getExtensionElement v) hs)) v, map (fetch_of v) hs).
Proof.
  unfold start_all.
  assert (Hone : ∀ evs fs h,
    start_one (emits evs v, fs) h
    = (emits (evs ++ [GetTreeItem (getExtensionElement v h)]) v, fs ++ [fetch_of v h])).
  { intros evs fs h. unfold start_one, refreshNode_start. cbn [fst snd].
    by rewrite emit_emits. }
  assert (Hgen : ∀ evs fs,
    foldl start_one (emits evs v, fs) hs
    = (emits (evs ++ map GetTreeItem (map (getExtensionElement v) hs)) v,
       fs ++ map (fetch_of v) hs)).
  { induction hs as [|h hs IH]; intros evs fs; cbn [foldl map].
    - by rewrite !app_nil_r.
    - rewrite Hone, IH. by rewrite <- !app_assoc. }
  specialize (Hgen [] []). simpl in Hgen.
  assert (Hv : emits [] v = v).
  { unfold emits. rewrite app_nil_r. by destruct v. }
  rewrite Hv in Hgen. exact Hgen.
Qed.

(** The state of the join in [refreshHandles] once the fetches [settled],
    started on [v0], have settled in that order. *)
Lemma settle_all_spec v0 settled j0 :
  (∀ f, f ∈ settled → ∃ h, f = fetch_of v0 h) →
  (∀ e n, nodes v0 !! e = Some n →
     ∃ n', nodes (j_view j0) !! e = Some n' ∧ parent n' = parent n) →
  let j := foldl (refresh_one super) j0 settled in
  (elements (j_view j) = elements (j_view j0)
   ∧ handle (j_view j) = handle (j_view j0)
   ∧ componentId (j_view j) = componentId (j_view j0)
   ∧ componentDataProvider (j_view j) = componentDataProvider (j_view j0)
   ∧ trace (j_view j) = trace (j_view j0))
  ∧ (∀ e n, nodes v0 !! e = Some n →
       ∃ n', nodes (j_view j) !! e = Some n' ∧ parent n' = parent n)
  ∧ (∀ h it, j_items j !! h = Some it →
       j_items j0 !! h = Some it
       ∨ ∃ f extTreeItem,
           f ∈ settled ∧ f_handle f = h
           ∧ f_promise f = Resolved (Some extTreeItem)
           ∧ it !! "checked" = Some (get_prop extTreeItem "checked"))
  ∧ (∀ h, is_Some (j_items j0 !! h) → is_Some (j_items j !! h))
  ∧ (∀ f extTreeItem, f ∈ settled →
       f_promise f = Resolved (Some extTreeItem) →
       is_Some (f_existing f) →
       is_Some (j_items j !! f_handle f))
  ∧ (j_errors j0 ≠ [] → j_errors j ≠ [])
  ∧ ((∃ f err, f ∈ settled ∧ f_promise f = Rejected err) → j_errors j ≠ [])
  ∧ (j_errors j0 = [] →
     (∀ f, f ∈ settled →
        (∀ err, f_promise f ≠ Rejected err) ∧ is_Some (f_existing f)) →
     j_errors j = []).
Proof.
  revert j0. induction settled as [|f settled IH]; intros j0 Hfetch Hinv j.
  { unfold j. simpl. split_and!; try done.
    - intros h it Hit. by left.
    - intros f eti Hin. by apply elem_of_nil in Hin.
    - intros (f & err & Hin & _). by apply elem_of_nil in Hin. }
  unfold j. simpl. set (j1 := refresh_one super j0 f).
  destruct (refreshNode_then_spec (j_view j0) f)
    as (v1 & r & Hstep & (Hels1 & Hh1 & Hc1 & Hp1 & Htr1) & Hcase).
  assert (Hview : j_view j1 = v1).
  { unfold j1, refresh_one. rewrite Hstep. by destruct r as [[n|]|err]. }
  destruct (Hfetch f (list_elem_of_here _ _)) as (hf & Hf).
  assert (Hexisting : f_existing f = nodes v0 !! f_element f) by (by rewrite Hf).
  assert (Hinv1 : ∀ e n, nodes v0 !! e = Some n →
            ∃ n', nodes (j_view j1) !! e = Some n' ∧ parent n' = parent n).
  { intros e n He. rewrite Hview. destruct (Hinv e n He) as (n0 & Hn0 & Hpar0).
    destruct (f_promise f) as [[eti|]|err].
    - destruct (f_existing f) as [existing|] eqn:Hex.
      + destruct Hcase as (newNode & _ & Hpar & _ & Hn). rewrite Hn.
        destruct (decide (f_element f = e)) as [Heq|Hne].
        * rewrite Heq, lookup_insert_eq. exists newNode. split; [done |].
          rewrite Heq, He in Hexisting. congruence.
        * rewrite lookup_insert_ne by done. eauto.
      + destruct Hcase as [_ ->]. eauto.
    - destruct Hcase as [_ ->]. eauto.
    - destruct Hcase as [_ ->]. eauto. }
  destruct (IH j1 (λ f' Hin, Hfetch f' (list_elem_of_further _ _ _ Hin)) Hinv1)
    as ((Hels & Hh & Hc & Hp & Htr) & Hnodes & Hsound & Hmono & Hcompl
        & Herr & Hfail & Hok).
  rewrite Hview in Hels, Hh, Hc, Hp, Htr.
  split_and!.
  - by rewrite Hels.
  - by rewrite Hh.
  - by rewrite Hc.
  - by rewrite Hp.
  - by rewrite Htr.
  - exact Hnodes.
  - intros h it Hit. destruct (Hsound h it Hit) as [Hold|(f' & eti & Hin & Hhf & Hpf & Hchk)].
    + unfold j1, refresh_one in Hold. rewrite Hstep in Hold.
      destruct (f_promise f) as [[eti|]|err] eqn:Hpf.
      * destruct (f_existing f) as [existing|].
        -- destruct Hcase as (newNode & -> & _ & Hitem & _). simpl in Hold.
           destruct (decide (f_handle f = h)) as [Heq|Hne].
           ++ rewrite Heq, lookup_insert_eq in Hold. injection Hold as <-.
              right. exists f, eti. split_and!; try done; [apply list_elem_of_here |].
              rewrite Hitem, createTreeItem_unfold. by rewrite lookup_insert_eq.
           ++ rewrite lookup_insert_ne in Hold by done. by left.
        -- destruct Hcase as [-> _]. by left.
      * destruct Hcase as [-> _]. by left.
      * destruct Hcase as [-> _]. by left.
    + right. exists f', eti. split_and!; try done. by apply list_elem_of_further.
  - intros h Hsome. apply Hmono.
    unfold j1, refresh_one. rewrite Hstep.
    destruct r as [[n|]|err]; simpl; try done.
    destruct (decide (f_handle f = h)) as [Heq|Hne].
    + rewrite Heq, lookup_insert_eq. eauto.
    + by rewrite lookup_insert_ne.
  - intros f' eti Hin Hpf Hnode. apply elem_of_cons in Hin as [->|Hin].
    + apply Hmono. unfold j1, refresh_one. rewrite Hstep.
      rewrite Hpf in Hcase. destruct Hnode as [existing Hex]. rewrite Hex in Hcase.
      destruct Hcase as (newNode & -> & _). simpl. rewrite lookup_insert_eq. eauto.
    + by apply (Hcompl f' eti Hin).
  - intros Hne. apply Herr. unfold j1, refresh_one. rewrite Hstep.
    destruct r as [[n|]|err]; simpl; try done.
    intros Happ. by apply app_eq_nil in Happ as [_ ?].
  - intros (f' & err & Hin & Hpf). apply elem_of_cons in Hin as [->|Hin].
    + apply Herr. unfold j1, refresh_one. rewrite Hstep.
      rewrite Hpf in Hcase. destruct Hcase as [-> _]. simpl.
      intros Happ. by apply app_eq_nil in Happ as [_ ?].
    + apply Hfail. eauto.
  - intros Hnil Hall. apply Hok.
    + unfold j1, refresh_one. rewrite Hstep.
      destruct (Hall f (list_elem_of_here _ _)) as [Hnofail [existing Hex]].
      rewrite Hex in Hcase.
      destruct (f_promise f) as [[eti|]|err].
      * by destruct Hcase as (newNode & -> & _).
      * by destruct Hcase as [-> _].
      * by destruct (Hnofail err).
    + intros f' Hin. apply Hall. by apply list_elem_of_further.
Qed.

Lemma host_calls_fetches (es : list JsVal) : host_calls (map GetTreeItem es) = [].
Proof.
  unfold host_calls. induction es as [|e es IH]; [done |].
  simpl. rewrite filter_cons. by destruct (decide _).
Qed.

(** [refreshHandles] in terms of the joined state. *)
Lemma refreshHandles_spec v hs schedule :
  let v1 := emits (map GetTreeItem (map (getExtensionElement v) hs)) v in
  let settled := omap (λ i, map (fetch_of v) hs !! i) schedule in
  let j := foldl (refresh_one super)
             {| j_view := v1; j_items := ∅; j_errors := [] |} settled in
  let sent := if decide (j_errors j = [] ∧ j_items j ≠ ∅)
              then [RefreshDataProvider (handle v) (componentId v) (Some (j_items j))]
              else [] in
  trace (refreshHandles super modelViewProxy v hs schedule).1
    = trace v ++ map GetTreeItem (map (getExtensionElement v) hs) ++ sent
  ∧ elements (refreshHandles super modelViewProxy v hs schedule).1 = elements v
  ∧ nodes (refreshHandles super modelViewProxy v hs schedule).1 = nodes (j_view j).
Proof.
  intros v1 settled j sent. unfold refreshHandles. rewrite start_all_spec.
  fold v1 settled j.
  assert (Hsettled : ∀ f, f ∈ settled → ∃ h, f = fetch_of v h).
  { intros f Hin. apply list_elem_of_omap in Hin as (i & _ & Hi).
    rewrite list_lookup_fmap in Hi. apply fmap_Some in Hi as (h & _ & ->). eauto. }
  destruct (settle_all_spec v settled {| j_view := v1; j_items := ∅; j_errors := [] |}
              Hsettled) as ((Hels & _ & _ & _ & Htr) & _).
  { intros e n He. exists n. by split. }
  fold j in Hels, Htr. simpl in Hels, Htr. unfold sent.
  destruct (j_errors j) as [|err errs] eqn:Herrs.
  - destruct (decide (size (j_items j) = 0%nat)) as [Hsize|Hsize]; cbn [fst].
    + apply map_size_empty_iff in Hsize.
      destruct (decide _) as [[_ ?]|_]; [done |]. by rewrite app_nil_r.
    + apply map_size_non_empty_iff in Hsize.
      destruct (decide _) as [_|Hn]; [| by destruct Hn].
      simpl. by rewrite Htr, <- app_assoc.
  - cbn [fst]. destruct (decide _) as [[? _]|_]; [done |].
    by rewrite app_nil_r.
Qed.

Lemma refresh_no_root v els schedule :
  (∀ element, element ∈ els → truthy element = true) →
  refresh super modelViewProxy v els schedule
  = (refreshHandles super modelViewProxy v (getHandlesToRefresh v els) schedule).1.
Proof.
  intros Htruthy. unfold refresh.
  assert (Hroot : existsb (λ element, negb (truthy element)) els = false).
  { apply not_true_is_false. intros Hex. apply existsb_exists in Hex as (e & Hin & He).
    apply list_elem_of_In in Hin. by rewrite (Htruthy e Hin) in He. }
  rewrite Hroot.
  destruct (decide (length (getHandlesToRefresh v els) = 0%nat)) as [Hlen|Hlen]; [| done].
  apply nil_length_inv in Hlen. rewrite Hlen.
  assert (Hnone : omap (λ i, @nil Fetch !! i) schedule = []).
  { apply list_eq_nil_elem. intros f Hin.
    apply list_elem_of_omap in Hin as (i & _ & Hi). by rewrite lookup_nil in Hi. }
  unfold refreshHandles, start_all. cbn [foldl]. cbv beta iota zeta.
  by rewrite Hnone.
Qed.

Lemma elem_of_getHandlesToRefresh v els h :
  h ∈ getHandlesToRefresh v els ↔ ∃ e, e ∈ els ∧ getHandle v e = Some h.
Proof. unfold getHandlesToRefresh. apply list_elem_of_omap. Qed.

Lemma refreshNode_unfold v h :
  refreshNode super v h
  = refreshNode_then super (emit (GetTreeItem (getExtensionElement v h)) v) (fetch_of v h).
Proof. reflexivity. Qed.

(** C5. Refreshing a handle whose element has a node in the cache keeps the
    handle index as it is and stores, under the same element, a node whose
    parent is the parent of the existing node; when the provider hands back a
    tree item that node is the one rebuilt from it, and it is what
    [refreshNode] resolves to. No node of the cache gets another parent, by
    one [refreshNode] or by a whole [refreshHandles], in whatever order the
    provider calls settle. *)
Theorem refreshNode_keeps_handle_and_parent
    (v : ExtHostTreeView) (h : TreeItemHandle) (e : JsVal) (existing : TreeNode) :
  elements v !! h = Some e →
  nodes v !! e = Some existing →
  (∃ v' r,
    refreshNode super v h = (v', r)
    ∧ elements v' = elements v
    ∧ (∃ n, nodes v' !! e = Some n ∧ parent n = parent existing)
    ∧ (∀ e' n, nodes v !! e' = Some n →
         ∃ n', nodes v' !! e' = Some n' ∧ parent n' = parent n)
    ∧ (∀ e', e' ≠ e → nodes v' !! e' = nodes v !! e')
    ∧ (∀ extTreeItem, fetched v e = Resolved (Some extTreeItem) →
         ∃ newNode v1,
           r = Resolved (Some newNode)
           ∧ nodes v' !! e = Some newNode
           ∧ parent newNode = parent existing
           ∧ item newNode = createTreeItem super v1 e extTreeItem (parent existing)
           ∧ elements v1 = elements v
           ∧ nodes v1 = nodes v)
    ∧ ((∀ extTreeItem, fetched v e ≠ Resolved (Some extTreeItem)) →
         nodes v' = nodes v ∧ ∀ n, r ≠ Resolved (Some n)))
  ∧ (∀ hs schedule e' n, nodes v !! e' = Some n →
       elements (refreshHandles super modelViewProxy v hs schedule).1 = elements v
       ∧ ∃ n', nodes (refreshHandles super modelViewProxy v hs schedule).1 !! e' = Some n'
               ∧ parent n' = parent n).
Proof.
  intros Hh He. split.
  - rewrite refreshNode_unfold.
    assert (Hext : getExtensionElement v h = e).
    { unfold getExtensionElement. by rewrite Hh. }
    rewrite Hext.
    destruct (refreshNode_then_spec (emit (GetTreeItem e) v) (fetch_of v h))
      as (v' & r & Hstep & (Hels & _) & Hcase).
    assert (Hfe : f_element (fetch_of v h) = e) by exact Hext.
    assert (Hfx : f_existing (fetch_of v h) = Some existing).
    { change (nodes v !! getExtensionElement v h = Some existing). by rewrite Hext. }
    assert (Hfp : f_promise (fetch_of v h) = fetched v e).
    { change (fetched v (getExtensionElement v h) = fetched v e). by rewrite Hext. }
    rewrite Hfe, Hfx, Hfp in Hcase. simpl in Hels, Hcase.
    exists v', r. split; [done |]. split; [done |].
    destruct (fetched v e) as [[extTreeItem|]|err] eqn:Hf.
    + destruct Hcase as (newNode & -> & Hpar & Hitem & Hnodes). rewrite Hnodes.
      split_and!.
      * exists newNode. by rewrite lookup_insert_eq.
      * intros e' n Hn. destruct (decide (e = e')) as [<-|Hne].
        -- exists newNode. rewrite lookup_insert_eq. split; [done |]. congruence.
        -- rewrite lookup_insert_ne by done. eauto.
      * intros e' Hne. by rewrite lookup_insert_ne.
      * intros eti [= <-]. exists newNode, (emit (GetTreeItem e) v).
        rewrite lookup_insert_eq. by split_and!.
      * intros Hno. by destruct (Hno extTreeItem).
    + destruct Hcase as [-> ->]. split_and!; eauto; try done.
    + destruct Hcase as [-> ->]. split_and!; eauto; try done.
  - intros hs schedule e' n Hn.
    destruct (refreshHandles_spec v hs schedule) as (_ & Hels & Hnodes).
    cbv zeta in Hnodes. rewrite Hnodes. split; [done |].
    eapply settle_all_spec; [| | exact Hn].
    + intros f Hin. apply list_elem_of_omap in Hin as (i & _ & Hi).
      rewrite list_lookup_fmap in Hi. apply fmap_Some in Hi as (h' & _ & ->). eauto.
    + intros e0 n0 He0. exists n0. by split.
Qed.

(** C4. When no element of the batch is falsy, [refresh] fetches the tree item
    of every element that has a handle and of no other; an element without a
    handle is left out and nothing fails. Whatever the order in which the
    fetches settle, the host is called at most once, with the map from handles
    to rebuilt items, never with an empty map and never without one; it is not
    called when no handle yields an item, nor when a fetch fails; and it is
    called, with a key for every element that yielded an item, when every
    indexed element has a node and no fetch fails. *)
Theorem refresh_without_root_batches
    (v : ExtHostTreeView) (els : list JsVal) (schedule : list nat) :
  (∀ element, element ∈ els → truthy element = true) →
  schedule ≡ₚ seq 0 (length (getHandlesToRefresh v els)) →
  ∃ new,
    trace (refresh super modelViewProxy v els schedule) = trace v ++ new
    ∧ elements (refresh super modelViewProxy v els schedule) = elements v
    ∧ (∀ e, GetTreeItem e ∈ new ↔ e ∈ els ∧ ∃ h, elements v !! h = Some e)
    ∧ (host_calls new = []
       ∨ ∃ items,
           host_calls new
             = [RefreshDataProvider (handle v) (componentId v) (Some items)]
           ∧ items ≠ ∅
           ∧ ∀ h it, items !! h = Some it →
               ∃ e extTreeItem,
                 e ∈ els ∧ elements v !! h = Some e
                 ∧ fetched v e = Resolved (Some extTreeItem)
                 ∧ it !! "checked" = Some (get_prop extTreeItem "checked"))
    ∧ ((∀ e h extTreeItem, e ∈ els → elements v !! h = Some e →
          fetched v e ≠ Resolved (Some extTreeItem)) →
       host_calls new = [])
    ∧ ((∃ e h err, e ∈ els ∧ elements v !! h = Some e ∧ fetched v e = Rejected err) →
       host_calls new = [])
    ∧ ((∀ h e, elements v !! h = Some e → is_Some (nodes v !! e)) →
       (∀ e h err, e ∈ els → elements v !! h = Some e → fetched v e ≠ Rejected err) →
       (∃ e h extTreeItem,
          e ∈ els ∧ elements v !! h = Some e ∧ fetched v e = Resolved (Some extTreeItem)) →
       ∃ items,
         host_calls new
           = [RefreshDataProvider (handle v) (componentId v) (Some items)]
         ∧ ∀ e h extTreeItem,
             e ∈ els → elements v !! h = Some e →
             fetched v e = Resolved (Some extTreeItem) →
             ∃ h', elements v !! h' = Some e ∧ is_Some (items !! h')).
Proof.
  intros Htruthy Hsched. rewrite (refresh_no_root v els schedule Htruthy).
  set (hs := getHandlesToRefresh v els) in *.
  destruct (refreshHandles_spec v hs schedule) as (Htr & Hels & _). cbv zeta in Htr.
  set (v1 := emits (map GetTreeItem (map (getExtensionElement v) hs)) v) in Htr.
  set (settled := omap (λ i, map (fetch_of v) hs !! i) schedule) in Htr.
  set (j := foldl (refresh_one super)
              {| j_view := v1; j_items := ∅; j_errors := [] |} settled) in Htr.
  assert (Hperm : settled ≡ₚ map (fetch_of v) hs).
  { apply omap_schedule. by rewrite length_map. }
  assert (Hmem : ∀ f, f ∈ settled ↔ ∃ h, h ∈ hs ∧ f = fetch_of v h).
  { intros f. rewrite Hperm, list_elem_of_fmap.
    split; [intros (h & -> & Hin) | intros (h & Hin & ->)]; eauto. }
  destruct (settle_all_spec v settled {| j_view := v1; j_items := ∅; j_errors := [] |})
    as (_ & _ & Hsound & _ & Hcompl & _ & Hfail & Hok).
  { intros f Hin. apply Hmem in Hin as (h & _ & ->). eauto. }
  { intros e n He. exists n. by split. }
  fold j in Hsound, Hcompl, Hfail, Hok. simpl in Hsound, Hcompl, Hfail, Hok.
  assert (Hhs : ∀ h, h ∈ hs → ∃ e, e ∈ els ∧ elements v !! h = Some e
                                   ∧ getExtensionElement v h = e).
  { intros h Hin. apply elem_of_getHandlesToRefresh in Hin as (e & Hin & Hget).
    apply getHandle_Some in Hget. exists e. split_and!; try done.
    unfold getExtensionElement. by rewrite Hget. }
  assert (Hknown : ∀ e h, e ∈ els → elements v !! h = Some e →
                     ∃ h', h' ∈ hs ∧ elements v !! h' = Some e
                           ∧ getExtensionElement v h' = e).
  { intros e h Hin Hh. destruct (getHandle v e) as [h'|] eqn:Hget.
    - exists h'. pose proof (getHandle_Some _ _ _ Hget) as Hh'. split_and!; try done.
      + apply elem_of_getHandlesToRefresh. eauto.
      + unfold getExtensionElement. by rewrite Hh'.
    - pose proof (proj1 (getHandle_None v e) Hget) as Hnone. by destruct (Hnone h). }
  assert (Hitems : ∀ h it, j_items j !! h = Some it →
            ∃ e extTreeItem, e ∈ els ∧ elements v !! h = Some e
              ∧ fetched v e = Resolved (Some extTreeItem)
              ∧ it !! "checked" = Some (get_prop extTreeItem "checked")).
  { intros h it Hit.
    destruct (Hsound h it Hit) as [Hempty|(f & eti & Hin & Hhf & Hpf & Hchk)].
    - by rewrite lookup_empty in Hempty.
    - apply Hmem in Hin as (h' & Hin & ->). simpl in Hhf. subst h'.
      destruct (Hhs h Hin) as (e & Hine & Hh & Hext).
      change (fetched v (getExtensionElement v h) = Resolved (Some eti)) in Hpf.
      rewrite Hext in Hpf. exists e, eti. by split_and!. }
  eexists. split; [exact Htr |]. split; [exact Hels |].
  assert (Hcalls : ∀ sent, host_calls (map GetTreeItem (map (getExtensionElement v) hs) ++ sent)
                           = host_calls sent).
  { intros sent. unfold host_calls. rewrite filter_app.
    fold (host_calls (map GetTreeItem (map (getExtensionElement v) hs))).
    by rewrite host_calls_fetches. }
  rewrite Hcalls.
  split_and!.
  - intros e. rewrite elem_of_app. split.
    + intros [Hin|Hin].
      * apply list_elem_of_fmap in Hin as (e' & [= <-] & Hin).
        apply list_elem_of_fmap in Hin as (h & -> & Hin).
        destruct (Hhs h Hin) as (e & Hine & Hh & ->). eauto.
      * destruct (decide _); [| by apply elem_of_nil in Hin].
        apply list_elem_of_singleton in Hin. discriminate.
    + intros (Hin & h & Hh). left.
      destruct (Hknown e h Hin Hh) as (h' & Hin' & _ & Hext).
      apply list_elem_of_fmap. exists e. split; [done |].
      apply list_elem_of_fmap. exists h'. by split.
  - destruct (decide _) as [[_ Hne]|_]; [right | by left].
    exists (j_items j). by split_and!.
  - intros Hnone. destruct (decide _) as [[_ Hne]|_]; [| done].
    exfalso. apply Hne. apply map_eq. intros h. rewrite lookup_empty.
    destruct (j_items j !! h) as [it|] eqn:Hit; [| done].
    destruct (Hitems h it Hit) as (e & eti & Hin & Hh & Hf & _).
    by destruct (Hnone e h eti Hin Hh).
  - intros (e & h & err & Hin & Hh & Hf).
    destruct (decide _) as [[Herrs _]|_]; [| done].
    exfalso. revert Herrs. apply Hfail.
    destruct (Hknown e h Hin Hh) as (h' & Hin' & _ & Hext).
    exists (fetch_of v h'), err. split; [apply Hmem; eauto |].
    change (fetched v (getExtensionElement v h') = Rejected err). by rewrite Hext.
  - intros Hcoh Hnofail (e & h & eti & Hin & Hh & Hf).
    assert (Herrs : j_errors j = []).
    { apply Hok; [done |]. intros f Hinf.
      apply Hmem in Hinf as (h' & Hin' & ->).
      destruct (Hhs h' Hin') as (e' & Hine' & Hh' & Hext). split.
      - intros err.
        change (fetched v (getExtensionElement v h') ≠ Rejected err).
        rewrite Hext. by apply (Hnofail e' h').
      - change (is_Some (nodes v !! getExtensionElement v h')).
        rewrite Hext. by apply (Hcoh h'). }
    assert (Hkey : ∀ e h eti, e ∈ els → elements v !! h = Some e →
              fetched v e = Resolved (Some eti) →
              ∃ h', elements v !! h' = Some e ∧ is_Some (j_items j !! h')).
    { intros e0 h0 eti0 Hin0 Hh0 Hf0.
      destruct (Hknown e0 h0 Hin0 Hh0) as (h' & Hin' & Hh' & Hext).
      exists h'. split; [done |].
      apply (Hcompl (fetch_of v h') eti0).
      - apply Hmem. eauto.
      - change (fetched v (getExtensionElement v h') = Resolved (Some eti0)).
        by rewrite Hext.
      - change (is_Some (nodes v !! getExtensionElement v h')).
        rewrite Hext. by apply (Hcoh h'). }
    destruct (Hkey e h eti Hin Hh Hf) as (h' & _ & it & Hit).
    destruct (decide _) as [_|Hn].
    + exists (j_items j). split; [done |]. exact Hkey.
    + exfalso. apply Hn. split; [done |]. intros Hempty.
      by rewrite Hempty, lookup_empty in Hit.
Qed.

(** C10. [createTreeItem] returns a new object: the base projection with the
    one property [checked] set to the extension tree item's [checked]
    property. Every other property reads as in the base projection, and in
    any store that holds the base item the result is written to a reference
    that was not in use, while the base item and every other object of the
    store stay as they were. *)
Theorem createTreeItem_extends_base_with_checked
    (v : ExtHostTreeView) (element : JsVal) (extensionTreeItem : Obj)
    (parent : option TreeNode) :
  let base := super_createTreeItem super v element extensionTreeItem parent in
  let result := createTreeItem super v element extensionTreeItem parent in
  result !! "checked" = Some (get_prop extensionTreeItem "checked")
  ∧ (∀ p, p ≠ "checked" → result !! p = base !! p)
  ∧ dom result = {["checked"]} ∪ dom base
  ∧ (∀ (σ : Store) (item : positive), σ !! item = Some base →
       ∃ σ' target,
         assign_checked σ item extensionTreeItem = (σ', target)
         ∧ σ !! target = None
         ∧ σ' !! target = Some result
         ∧ σ' !! item = Some base
         ∧ ∀ l, is_Some (σ !! l) → σ' !! l = σ !! l).
Proof.
  intros base result. unfold result. rewrite createTreeItem_unfold. fold base.
  split; [by rewrite lookup_insert_eq |].
  split; [by intros p Hp; rewrite lookup_insert_ne |].
  split; [by rewrite dom_insert_L |].
  intros σ item Hitem.
  destruct (assign_checked_store σ item base extensionTreeItem Hitem)
    as (σ' & target & Heq & Hfresh & Htarget & Hframe).
  exists σ', target. repeat split; try done.
  rewrite Hframe; eauto.
Qed.

(** C6. When the bound provider has no [getParent] function, [reveal] rejects
    with the error that names the missing method, for every element; the tree
    view is returned as it was (no provider call, no cache access), and the
    closure handed out by [$createTreeView] behaves the same. *)
Theorem reveal_requires_getParent
    (v : ExtHostTreeView) (element : JsVal) (options : option bool) :
  sqlops.getParent (componentDataProvider v) = None →
  reveal super v element options
    = (v, Rejected (Error
        "Required registered TreeDataProvider to implement 'getParent' method to access 'reveal' method"))
  ∧ ∀ host tv, objects host !! captured_treeView tv = Some v →
      TreeView_reveal super host tv element options
        = (host, Rejected (Error
            "Required registered TreeDataProvider to implement 'getParent' method to access 'reveal' method")).
Proof.
  intros Hnone.
  assert (Hreveal : reveal super v element options
    = (v, Rejected (Error
        "Required registered TreeDataProvider to implement 'getParent' method to access 'reveal' method"))).
  { unfold reveal. by rewrite Hnone. }
  split; [done |].
  intros host tv Hobj. unfold TreeView_reveal, on_object.
  rewrite lookup_total_alt, Hobj. simpl. rewrite Hreveal.
  rewrite insert_id by done. by destruct host.
Qed.

(** C7. [$getChildren] on a view id that the registry does not hold rejects
    with the not-registered error whose message contains that id; the
    registry and the tree views are left as they were. *)
Theorem getChildren_not_registered
    (host : ExtHostModelViewTreeViews) (treeViewId : string)
    (treeItemHandle : option TreeItemHandle) :
  treeViews host !! treeViewId = None →
  host_getChildren super host treeViewId treeItemHandle
    = (host, Rejected (Error
        ("No tree view with id '" +:+ treeViewId +:+ "' registered."))).
Proof.
  intros Hnone. unfold host_getChildren. by rewrite Hnone.
Qed.

(** C3. When some element of the batch is falsy, [refresh] empties both maps
    of the cache and makes exactly one call to the host,
    [$refreshDataProvider(handle, componentId)] without items, whatever else
    the batch holds: no tree item is fetched for any other element. *)
Theorem refresh_with_root_clears_and_redraws
    (v : ExtHostTreeView) (els : list JsVal) (schedule : list nat) :
  (∃ element, element ∈ els ∧ truthy element = false) →
  let v' := refresh super modelViewProxy v els schedule in
  elements v' = ∅
  ∧ nodes v' = ∅
  ∧ trace v' = trace v ++ [RefreshDataProvider (handle v) (componentId v) None]
  ∧ handle v' = handle v
  ∧ componentId v' = componentId v
  ∧ componentDataProvider v' = componentDataProvider v.
Proof.
  intros (element & Hin & Hfalsy) v'. unfold v', refresh.
  assert (Hroot : existsb (λ element, negb (truthy element)) els = true).
  { apply existsb_exists. exists element. split; [by apply list_elem_of_In |].
    by rewrite Hfalsy. }
  by rewrite Hroot.
Qed.

(** C8. [$onNodeCheckedChanged] on an unregistered view id changes nothing
    and calls nobody. On a registered id it calls the provider's
    [onNodeCheckedChanged] exactly once, with the element the handle resolves
    to and the checked value, and completes as that call does; when the handle
    is not in the cache an error is logged first and the provider is still
    called, with no element. The cache is not touched. *)
Theorem onNodeCheckedChanged_forwards
    (host : ExtHostModelViewTreeViews) (treeViewId : string)
    (treeItemHandle : option TreeItemHandle) (checked : JsVal) :
  (treeViews host !! treeViewId = None →
     host_onNodeCheckedChanged host treeViewId treeItemHandle checked = (host, Normal ()))
  ∧ (∀ ref, treeViews host !! treeViewId = Some ref →
       let v := objects host !!! ref in
       ∃ v' element log,
         host_onNodeCheckedChanged host treeViewId treeItemHandle checked
           = ({| treeViews := treeViews host; objects := <[ref := v']> (objects host) |},
              match sqlops.onNodeCheckedChanged (componentDataProvider v) element checked with
              | None => Normal ()
              | Some e => Thrown e
              end)
         ∧ trace v' = trace v ++ log ++ [NodeCheckedChanged element checked]
         ∧ elements v' = elements v
         ∧ nodes v' = nodes v
         ∧ componentDataProvider v' = componentDataProvider v
         ∧ (∀ h e, treeItemHandle = Some h → h ≠ "" → elements v !! h = Some e →
              element = e ∧ (truthy e = true → log = []))
         ∧ (∀ h, treeItemHandle = Some h → h ≠ "" → elements v !! h = None →
              element = VUndefined
              ∧ log = [ConsoleError ("No tree item with id '" +:+ h +:+ "' found.")])
         ∧ (treeItemHandle = None ∨ treeItemHandle = Some "" →
              element = VUndefined ∧ log = [])).
Proof.
  split.
  { intros Hnone. unfold host_onNodeCheckedChanged. by rewrite Hnone. }
  intros ref Href v. unfold host_onNodeCheckedChanged. rewrite Href.
  unfold on_object. fold v. unfold onNodeCheckedChanged.
  destruct treeItemHandle as [h|]; simpl.
  - destruct (String.eqb_spec h "") as [->|Hne]; simpl.
    + eexists _, VUndefined, []. split; [reflexivity |]. simpl.
      split_and!; try done; intros; simplify_eq.
    + destruct (truthy (getExtensionElement v h)) eqn:Htruthy; simpl.
      * eexists _, (getExtensionElement v h), []. split; [reflexivity |]. simpl.
        split_and!; try done.
        -- intros h' e [= <-] _ He. unfold getExtensionElement. by rewrite He.
        -- intros h' [= <-] _ He. unfold getExtensionElement in Htruthy.
           by rewrite He in Htruthy.
        -- intros [|[= ->]]; done.
      * eexists _, (getExtensionElement v h),
          [ConsoleError ("No tree item with id '" +:+ h +:+ "' found.")].
        split; [reflexivity |]. simpl. rewrite <- app_assoc. simpl.
        split_and!; try done.
        -- intros h' e [= <-] _ He. unfold getExtensionElement in *.
           rewrite He in *. simpl in *. split; [done | congruence].
        -- intros h' [= <-] _ He. unfold getExtensionElement. by rewrite He.
        -- intros [|[= ->]]; done.
  - eexists _, VUndefined, []. split; [reflexivity |]. simpl.
    split_and!; try done; intros; simplify_eq.
Qed.

(** C2. The disposed state is not terminal in the code. [$createTreeView]
    registers the tree view under the key [`${handle}-${id}`], but the
    [dispose] closure deletes the key [componentId]. After [dispose] the
    registry still maps
    the key to the tree view: [$getChildren] on that key is delegated to the
    tree view instead of being rejected, and [$onNodeCheckedChanged] on it
    still calls the data provider. *)
Theorem dispose_leaves_view_registered
    (host : ExtHostModelViewTreeViews) (handle : Z) (componentId : string)
    (dataProvider : sqlops.TreeComponentDataProvider)
    (treeItemHandle : option TreeItemHandle) (checked : JsVal) :
  ∃ host1 tv,
    host_createTreeView host handle componentId
        (Some {| treeDataProvider := Some dataProvider |}) = (host1, Normal tv)
    ∧ let host2 := TreeView_dispose host1 tv in
      let key := registry_key handle componentId in
      treeViews host2 !! key = Some (captured_treeView tv)
      ∧ (host_getChildren super host2 key treeItemHandle).2
        = (super_getChildren super
             (dispose (new_ExtHostTreeView handle componentId dataProvider))
             treeItemHandle).2
      ∧ trace ((host_onNodeCheckedChanged host2 key None checked).1.(objects)
                 !!! captured_treeView tv)
        = [NodeCheckedChanged VUndefined checked].
Proof.
  unfold host_createTreeView, createExtHostTreeViewer. simpl.
  eexists _, _. split; [reflexivity |]. simpl.
  set (ref := fresh (dom (objects host))).
  set (key := registry_key handle componentId).
  assert (Hkey : treeViews (TreeView_dispose
      {| treeViews := <[key := ref]> (treeViews host);
         objects := <[ref := new_ExtHostTreeView handle componentId dataProvider]>
                      (objects host) |}
      {| captured_treeView := ref; captured_componentId := componentId |}) !! key
      = Some ref).
  { unfold TreeView_dispose, on_object. simpl.
    rewrite lookup_delete_ne by (symmetry; apply registry_key_fresh).
    by rewrite lookup_insert_eq. }
  split; [exact Hkey |].
  unfold host_getChildren, host_onNodeCheckedChanged. rewrite Hkey.
  unfold TreeView_dispose, on_object. simpl.
  rewrite !lookup_total_insert_eq.
  split.
  - by destruct (super_getChildren super _ treeItemHandle).
  - reflexivity.
Qed.

End BridgeProps.

Lemma createTreeItem_example :
  map_to_list (createTreeItem label_projection abc_view (VStr "a")
                 {[ "label" := VStr "A"; "checked" := VBool true ]} None)
  = [("checked", VBool true); ("label", VStr "A"); ("handle", VStr "0/0:item")].
Proof. vm_compute. reflexivity. Qed.

Lemma reveal_requires_getParent_witness :
  sqlops.getParent (componentDataProvider abc_view) = None
  ∧ reveal label_projection abc_view (VStr "a") (Some true)
    = (abc_view, Rejected (Error
        "Required registered TreeDataProvider to implement 'getParent' method to access 'reveal' method")).
Proof.
  split; [reflexivity |].
  apply (reveal_requires_getParent label_projection abc_view (VStr "a") (Some true)).
  reflexivity.
Defined.

Lemma getChildren_not_registered_witness :
  treeViews empty_host !! "v1" = None
  ∧ host_getChildren label_projection empty_host "v1" None
    = (empty_host, Rejected (Error "No tree view with id 'v1' registered.")).
Proof.
  split; [reflexivity |].
  apply (getChildren_not_registered label_projection empty_host "v1" None).
  reflexivity.
Defined.

Lemma refresh_with_root_clears_and_redraws_witness :
  (∃ element, element ∈ [VStr "a"; VNull] ∧ truthy element = false)
  ∧ elements (refresh label_projection accepting_proxy abc_view [VStr "a"; VNull] [0%nat]) = ∅
  ∧ nodes (refresh label_projection accepting_proxy abc_view [VStr "a"; VNull] [0%nat]) = ∅
  ∧ trace (refresh label_projection accepting_proxy abc_view [VStr "a"; VNull] [0%nat])
    = [RefreshDataProvider 7 "tree" None].
Proof.
  assert (Hroot : ∃ element, element ∈ [VStr "a"; VNull] ∧ truthy element = false).
  { exists VNull. split; [| reflexivity].
    apply list_elem_of_further, list_elem_of_here. }
  split; [exact Hroot |].
  destruct (refresh_with_root_clears_and_redraws label_projection accepting_proxy abc_view
              [VStr "a"; VNull] [0%nat] Hroot) as (Hels & Hnodes & Htrace & _).
  split_and!; [exact Hels | exact Hnodes | exact Htrace].
Defined.

Lemma refresh_without_root_batches_witness :
  (∀ element, element ∈ [VStr "a"; VStr "zz"; VStr "b"] → truthy element = true)
  ∧ [1; 0]%nat
    ≡ₚ seq 0 (length (getHandlesToRefresh abc_view [VStr "a"; VStr "zz"; VStr "b"]))
  ∧ ∃ new,
      trace (refresh label_projection accepting_proxy abc_view [VStr "a"; VStr "zz"; VStr "b"] [1; 0]%nat)
        = trace abc_view ++ new
      ∧ (∀ e, GetTreeItem e ∈ new ↔
           e ∈ [VStr "a"; VStr "zz"; VStr "b"] ∧ ∃ h, elements abc_view !! h = Some e)
      ∧ (host_calls new = []
         ∨ ∃ items,
             host_calls new = [RefreshDataProvider 7 "tree" (Some items)] ∧ items ≠ ∅).
Proof.
  assert (Htruthy : ∀ element,
            element ∈ [VStr "a"; VStr "zz"; VStr "b"] → truthy element = true).
  { intros element Hin.
    repeat (apply elem_of_cons in Hin as [->|Hin]; [reflexivity |]).
    by apply elem_of_nil in Hin. }
  assert (Hsched : [1; 0]%nat
    ≡ₚ seq 0 (length (getHandlesToRefresh abc_view [VStr "a"; VStr "zz"; VStr "b"]))).
  { apply (bool_decide_unpack _). vm_compute. exact I. }
  split; [exact Htruthy |]. split; [exact Hsched |].
  destruct (refresh_without_root_batches label_projection accepting_proxy abc_view
              [VStr "a"; VStr "zz"; VStr "b"] [1; 0]%nat Htruthy Hsched)
    as (new & Htrace & _ & Hfetch & Hcalls & _).
  exists new. split; [exact Htrace |]. split; [exact Hfetch |].
  destruct Hcalls as [Hnone|(items & Hone & Hne & _)]; [by left |].
  right. exists items. by split.
Defined.

(** The batch above on the concrete tree view, the second fetch settling
    first: ["zz"] has no handle and is left out, ["b"] has no item any more
    and is left out, and the host gets one call, with the rebuilt item of
    handle ["h1"]. *)
Example refresh_without_root_batches_run :
  match trace (refresh label_projection accepting_proxy abc_view
                 [VStr "a"; VStr "zz"; VStr "b"] [1; 0]%nat) with
  | [GetTreeItem (VStr "a"); GetTreeItem (VStr "b");
     RefreshDataProvider 7 "tree" (Some items)] =>
      map_to_list items
      = [("h1", {[ "checked" := VBool true; "label" := VStr "A";
                   "handle" := VStr "0/0:item" ]})]
  | _ => False
  end.
Proof. vm_compute. reflexivity. Qed.

(** A fetch that throws keeps the host from being called at all. *)
Example refresh_without_root_fetch_throws :
  trace (refresh label_projection accepting_proxy abc_view [VStr "a"; VStr "c"] [0; 1]%nat)
  = [GetTreeItem (VStr "a"); GetTreeItem (VStr "c")].
Proof. vm_compute. reflexivity. Qed.

(** No handle resolves: the host is not called. *)
Example refresh_without_root_nothing_resolves :
  trace (refresh label_projection accepting_proxy abc_view [VStr "zz"; VStr "b"] [0%nat])
  = [GetTreeItem (VStr "b")].
Proof. vm_compute. reflexivity. Qed.

(** [refreshNode] on a handle that is not in the cache, with a provider that
    has an item for [undefined]: the continuation throws on
    [existing.parent]. *)
Example refreshNode_unknown_handle :
  (refreshNode label_projection abc_view "ghost").2
  = Rejected (TypeError "Cannot read property 'parent' of undefined").
Proof. reflexivity. Qed.

Lemma refreshNode_keeps_handle_and_parent_witness :
  elements abc_view !! "h1" = Some (VStr "a")
  ∧ nodes abc_view !! VStr "a" = Some (leaf_node "h1")
  ∧ ∃ v' r,
      refreshNode label_projection abc_view "h1" = (v', r)
      ∧ elements v' = elements abc_view
      ∧ ∃ n, nodes v' !! VStr "a" = Some n ∧ parent n = Some root_node.
Proof.
  assert (Hh : elements abc_view !! "h1" = Some (VStr "a")) by (vm_compute; reflexivity).
  assert (He : nodes abc_view !! VStr "a" = Some (leaf_node "h1"))
    by (vm_compute; reflexivity).
  split; [exact Hh |]. split; [exact He |].
  destruct (refreshNode_keeps_handle_and_parent label_projection accepting_proxy abc_view "h1"
              (VStr "a") (leaf_node "h1") Hh He)
    as ((v' & r & Hstep & Hels & Hnode & _) & _).
  exists v', r. split_and!; [exact Hstep | exact Hels | exact Hnode].
Defined.

(** The run behind the witness: the rebuilt node of ["a"] has the refetched
    [checked] and [label] and still hangs under the root node. *)
Example refreshNode_run :
  match refreshNode label_projection abc_view "h1" with
  | (v', Resolved (Some newNode)) =>
      parent newNode = Some root_node
      ∧ get_prop (item newNode) "checked" = VBool true
      ∧ (parent <$> nodes v' !! VStr "a") = Some (Some root_node)
      ∧ elements v' !! "h1" = Some (VStr "a")
  | _ => False
  end.
Proof. vm_compute. auto. Qed.

(** The failing run of C2: the view created for handle 1 and component
    ["tree"] is disposed, and [$onNodeCheckedChanged] on its key ["1-tree"]
    then still reaches the provider. *)
Example dispose_then_checked_changed :
  match host_createTreeView empty_host 1 "tree"
          (Some {| treeDataProvider := Some abc_provider |}) with
  | (host1, Normal tv) =>
      let host2 := TreeView_dispose host1 tv in
      let host3 := (host_onNodeCheckedChanged host2 "1-tree" None (VBool true)).1 in
      treeViews host2 !! "1-tree" = Some (captured_treeView tv)
      ∧ trace (objects host3 !!! captured_treeView tv)
        = [NodeCheckedChanged VUndefined (VBool true)]
  | _ => False
  end.
Proof. vm_compute. auto. Qed.

(** [$onNodeCheckedChanged] with a handle the cache does not know: the error
    is logged and the provider is called without an element. *)
Example onNodeCheckedChanged_unknown_handle :
  trace (onNodeCheckedChanged abc_view (Some "ghost") (VBool false)).1
  = [ConsoleError "No tree item with id 'ghost' found.";
     NodeCheckedChanged VUndefined (VBool false)].
Proof. reflexivity. Qed.

Example onNodeCheckedChanged_known_handle :
  onNodeCheckedChanged abc_view (Some "h2") (VBool true)
  = (emit (NodeCheckedChanged (VStr "b") (VBool true)) abc_view, Normal ()).
Proof. vm_compute. reflexivity. Qed.

End ModelViewTreeProps.

(** * Further properties of the symbol aggregator *)

Module QuickOpenMore.
Import QuickOpen ModelViewTree DocumentSymbolCommand Fixtures MoreFixtures.
Import ScheduleFacts QuickOpenProps.

Lemma flat_entry_again o o' entry :
  o ≠ "" ∨ o' = o → flat_entry o' (flat_entry o entry) = flat_entry o entry.
Proof.
  intros Hlabels. unfold flat_entry. cbn [kind location name containerName].
  do 2 f_equal.
  assert (Hkeep : ∀ s, s ≠ "" → or_label (Some s) o' = s)
    by (intros s Hs; by apply or_label_own).
  assert (Hempty : or_label (Some "") o' = o') by reflexivity.
  destruct (containerName entry) as [own|].
  - destruct (String.eqb_spec own "") as [->|Hown].
    + change (or_label (Some "") o) with o.
      destruct (String.eqb_spec o "") as [->|Ho]; [| by apply Hkeep].
      rewrite Hempty. by destruct Hlabels as [?| ->].
    + rewrite (or_label_own own o Hown). by apply Hkeep.
  - change (or_label None o) with o.
    destruct (String.eqb_spec o "") as [->|Ho]; [| by apply Hkeep].
    rewrite Hempty. by destruct Hlabels as [?| ->].
Qed.

(** X1. Flattening what has been flattened changes nothing, provided the
    first override label was not empty or the two labels are the same: once a
    container name has been filled in, a later override never replaces it. *)
Theorem flatten_twice
    (entries : list SymbolInformation) (o o' : string) :
  o ≠ "" ∨ o' = o →
  flatten [] (flatten [] entries o) o' = flatten [] entries o.
Proof.
  intros Hlabels. rewrite !flatten_unfold. simpl.
  rewrite <- list_fmap_compose. apply list_fmap_ext.
  intros i entry _. simpl. by apply flat_entry_again.
Qed.

Lemma flatten_twice_witness :
  ("top" ≠ "" ∨ "other" = "top")
  ∧ flatten [] (flatten [] [entry_foo; entry_bar] "top") "other"
    = flatten [] [entry_foo; entry_bar] "top".
Proof.
  assert (Hlabels : "top" ≠ "" ∨ "other" = "top") by (left; discriminate).
  split; [exact Hlabels |].
  exact (flatten_twice [entry_foo; entry_bar] "top" "other" Hlabels).
Defined.

(** X2. Entries that all carry a non-empty container name come out of
    [flatten] exactly as they went in, whatever the override label. *)
Theorem flatten_named_entries_unchanged
    (bucket entries : list SymbolInformation) (override : string) :
  (∀ entry, entry ∈ entries →
     ∃ s, containerName entry = Some s ∧ s ≠ "") →
  flatten bucket entries override = bucket ++ entries.
Proof.
  intros Hnamed. rewrite flatten_unfold. f_equal.
  induction entries as [|entry entries IH]; [done |]. simpl. f_equal.
  - destruct (Hnamed entry (list_elem_of_here _ _)) as (s & Hs & Hne).
    unfold flat_entry. rewrite Hs, or_label_own by done.
    destruct entry. simpl in *. by rewrite Hs.
  - apply IH. intros e He. apply Hnamed. by apply list_elem_of_further.
Qed.

Lemma flatten_named_entries_unchanged_witness :
  (∀ entry, entry ∈ [entry_foo] → ∃ s, containerName entry = Some s ∧ s ≠ "")
  ∧ flatten [entry_bar] [entry_foo] "" = [entry_bar; entry_foo].
Proof.
  assert (Hnamed : ∀ entry, entry ∈ [entry_foo] →
            ∃ s, containerName entry = Some s ∧ s ≠ "").
  { intros entry Hin. apply list_elem_of_singleton in Hin as ->.
    exists "pkg". split; [reflexivity | discriminate]. }
  split; [exact Hnamed |].
  exact (flatten_named_entries_unchanged [entry_bar] [entry_foo] "" Hnamed).
Defined.

(** X3. When no two different entries handed back by the providers start at
    the same position, the outline does not depend on the order in which the
    provider calls settle. *)
Theorem getDocumentSymbols_order_independent {ITextModel : Type}
    (registry : LanguageFeatureRegistry ITextModel) (model : ITextModel)
    (schedule1 schedule2 : list nat) :
  let promises :=
    map (λ support, asWinJsPromise (provideDocumentSymbols support model))
        (all registry model) in
  schedule1 ≡ₚ seq 0 (length promises) →
  schedule2 ≡ₚ seq 0 (length promises) →
  (∀ a b, a ∈ promises ≫= provided_array → b ∈ promises ≫= provided_array →
     startLineNumber (range (location a)) = startLineNumber (range (location b)) →
     startColumn (range (location a)) = startColumn (range (location b)) →
     a = b) →
  (getDocumentSymbols registry model schedule1).1
  = (getDocumentSymbols registry model schedule2).1.
Proof.
  intros promises H1 H2 Hdistinct.
  unfold getDocumentSymbols. fold promises. simpl. do 2 f_equal.
  set (settled1 := omap (λ i, promises !! i) schedule1).
  set (settled2 := omap (λ i, promises !! i) schedule2).
  assert (Hs1 : settled1 ≡ₚ promises) by (by apply omap_schedule).
  assert (Hs2 : settled2 ≡ₚ promises) by (by apply omap_schedule).
  destruct (foldl_on_settled {| acc_entries := []; acc_sink := [] |} settled1)
    as [He1 _].
  destruct (foldl_on_settled {| acc_entries := []; acc_sink := [] |} settled2)
    as [He2 _].
  simpl in He1, He2. rewrite He1, He2, !flatten_unfold. simpl.
  assert (Hperm1 : array_sort compareEntriesUsingStart
                     (map (flat_entry "") (settled1 ≫= provided_array))
                   ≡ₚ map (flat_entry "") (promises ≫= provided_array)).
  { by rewrite array_sort_perm, Hs1. }
  assert (Hperm2 : array_sort compareEntriesUsingStart
                     (map (flat_entry "") (settled2 ≫= provided_array))
                   ≡ₚ map (flat_entry "") (promises ≫= provided_array)).
  { by rewrite array_sort_perm, Hs2. }
  apply (StronglySorted_unique_strong start_le).
  - intros x1 x2 Hx1 Hx2 Hle1 Hle2.
    rewrite Hperm1 in Hx1. rewrite Hperm2 in Hx2.
    apply list_elem_of_fmap in Hx1 as (a & -> & Ha).
    apply list_elem_of_fmap in Hx2 as (b & -> & Hb).
    unfold start_le in Hle1, Hle2. simpl in Hle1, Hle2.
    f_equal. apply Hdistinct; [done | done | lia | lia].
  - apply array_sort_sorted.
  - apply array_sort_sorted.
  - by rewrite Hperm1, Hperm2.
Qed.

Lemma getDocumentSymbols_order_independent_witness :
  [3; 1; 0; 2]%nat ≡ₚ seq 0 4
  ∧ [0; 1; 2; 3]%nat ≡ₚ seq 0 4
  ∧ (getDocumentSymbols four_providers () [3; 1; 0; 2]%nat).1
    = (getDocumentSymbols four_providers () [0; 1; 2; 3]%nat).1.
Proof.
  assert (H1 : [3; 1; 0; 2]%nat ≡ₚ seq 0 4).
  { apply (bool_decide_unpack _). vm_compute. exact I. }
  assert (H2 : [0; 1; 2; 3]%nat ≡ₚ seq 0 4) by reflexivity.
  split; [exact H1 |]. split; [exact H2 |].
  apply (getDocumentSymbols_order_independent four_providers ()
           [3; 1; 0; 2]%nat [0; 1; 2; 3]%nat H1 H2).
  intros a b Ha Hb Hline Hcol.
  change (a ∈ [entry_foo; entry_bar]) in Ha.
  change (b ∈ [entry_foo; entry_bar]) in Hb.
  repeat (apply elem_of_cons in Ha as [->|Ha]);
    repeat (apply elem_of_cons in Hb as [->|Hb]);
    try reflexivity; try discriminate;
    try (by apply elem_of_nil in Ha); try (by apply elem_of_nil in Hb).
Defined.

(** X4. The command [_executeDocumentSymbolProvider] fails in one way only:
    it throws the illegal-argument error for [resource], exactly when the
    resource is not a URI or the model service has no model for it. Whenever
    it returns, it returns what [getDocumentSymbols] returns for that model,
    and for every order in which the provider calls settle that promise
    fulfils, with entries sorted by start position. *)
Theorem executeDocumentSymbolProvider_outcome {ITextModel : Type}
    (registry : LanguageFeatureRegistry ITextModel)
    (accessor : IModelService ITextModel) (args : CommandArgs)
    (schedule : list nat) :
  let run := executeDocumentSymbolProvider registry accessor args schedule in
  (run = Thrown (illegalArgument "resource")
   ↔ (∀ uri, resource args = IsURI uri → getModel accessor uri = None))
  ∧ (∀ e, run = Thrown e → e = illegalArgument "resource")
  ∧ (∀ result, run = Normal result →
       ∃ uri model outline,
         resource args = IsURI uri
         ∧ getModel accessor uri = Some model
         ∧ result = getDocumentSymbols registry model schedule
         ∧ result.1 = Resolved outline
         ∧ StronglySorted start_le (entries outline)).
Proof.
  intros run. unfold run, executeDocumentSymbolProvider.
  destruct (resource args) as [uri|v].
  - destruct (getModel accessor uri) as [model|] eqn:Hmodel.
    + split_and!.
      * split; [discriminate |]. intros Hnone.
        specialize (Hnone uri eq_refl). congruence.
      * discriminate.
      * intros result [= <-]. eexists uri, model, _.
        split_and!; try done. simpl. apply array_sort_sorted.
    + split_and!.
      * split; [| done]. intros _ uri' [= <-]. done.
      * by intros e [= <-].
      * discriminate.
  - split_and!.
    + split; [| done]. intros _ uri. discriminate.
    + by intros e [= <-].
    + discriminate.
Qed.

Example executeDocumentSymbolProvider_not_a_uri :
  executeDocumentSymbolProvider two_providers one_document
    {| resource := NotURI (VStr "file:///a.sql") |} [0; 1]%nat
  = Thrown (Error "Illegal argument: resource").
Proof. reflexivity. Qed.

Example executeDocumentSymbolProvider_unknown_model :
  executeDocumentSymbolProvider two_providers one_document
    {| resource := IsURI "file:///b.sql" |} [0; 1]%nat
  = Thrown (Error "Illegal argument: resource").
Proof. reflexivity. Qed.

Example executeDocumentSymbolProvider_known_model :
  executeDocumentSymbolProvider two_providers one_document
    {| resource := IsURI "file:///a.sql" |} [1; 0]%nat
  = Normal (Resolved {| entries := [flat_entry "" entry_foo] |},
            [Error "provider B failed"]).
Proof. reflexivity. Qed.

End QuickOpenMore.

(** * Further properties of the tree-view bridge *)

Module ModelViewTreeMore.
Import ModelViewTree ModelViewTreeNotions Fixtures MoreFixtures.
Import ScheduleFacts ModelViewTreeProps.

(** ** Registry keys *)

Lemma append_nil_l (b : string) : "" +:+ b = b.
Proof. reflexivity. Qed.

Lemma append_cons (x : ascii) (a b : string) : String x a +:+ b = String x (a +:+ b).
Proof. reflexivity. Qed.

Lemma append_nil_r (a : string) : a +:+ "" = a.
Proof. induction a as [|x a IH]; [done |]. by rewrite append_cons, IH. Qed.

Lemma append_assoc_string (a b c : string) : (a +:+ b) +:+ c = a +:+ (b +:+ c).
Proof.
  induction a as [|x a IH]; [by rewrite !append_nil_l |].
  by rewrite !append_cons, IH.
Qed.

Lemma all_digits_app (a b : string) :
  all_digits a = true → all_digits b = true → all_digits (a +:+ b) = true.
Proof.
  induction a as [|x a IH]; [by rewrite append_nil_l |].
  rewrite append_cons. simpl.
  intros Ha Hb. apply andb_true_iff in Ha as [Hx Ha].
  rewrite Hx. simpl. by apply IH.
Qed.

Lemma pretty_N_char_digit (x : N) : is_digit (pretty_N_char x) = true.
Proof. unfold pretty_N_char. by repeat case_match. Qed.

Lemma pretty_N_go_digits (x : N) (s : string) :
  ∃ d, pretty_N_go x s = d +:+ s
       ∧ all_digits d = true
       ∧ ((0 < x)%N → d ≠ "").
Proof.
  revert s. induction (N.lt_wf_0 x) as [x _ IH]; intros s.
  assert (x = 0 ∨ 0 < x)%N as [->|Hpos] by lia.
  - exists "". rewrite pretty_N_go_0. split_and!; [done | done | lia].
  - rewrite pretty_N_go_step by done.
    destruct (IH (x `div` 10)%N (N.div_lt x 10 Hpos eq_refl)
                 (String (pretty_N_char (x `mod` 10)) s)) as (d & -> & Hd & _).
    exists (d +:+ String (pretty_N_char (x `mod` 10)) "").
    split_and!.
    + by rewrite append_assoc_string.
    + apply all_digits_app; [done |]. simpl. by rewrite pretty_N_char_digit.
    + intros _ Hempty. apply (f_equal String.length) in Hempty.
      rewrite append_length in Hempty. simpl in Hempty. lia.
Qed.

Lemma pretty_N_digits (x : N) :
  ∃ d, pretty x = d ∧ all_digits d = true ∧ d ≠ "".
Proof.
  unfold pretty, pretty_N. destruct (decide (x = 0%N)) as [->|Hne].
  - exists "0". by split_and!.
  - destruct (pretty_N_go_digits x "") as (d & Hd & Hall & Hnonempty).
    exists d. split_and!; [| done | apply Hnonempty; lia].
    by rewrite Hd, append_nil_r.
Qed.

(** The decimal form of an integer: digits, after a minus sign if it is
    negative. *)
Lemma pretty_Z_shape (h : Z) :
  ∃ d, all_digits d = true ∧ d ≠ ""
       ∧ (pretty h = d ∨ pretty h = String "-" d).
Proof.
  destruct h as [|x|x]; unfold pretty, pretty_Z.
  - exists "0". split_and!; [done | done | by left].
  - destruct (pretty_N_digits (N.pos x)) as (d & Hd & Hall & Hne).
    exists d. split_and!; [done | done | by left].
  - destruct (pretty_N_digits (N.pos x)) as (d & Hd & Hall & Hne).
    exists d. split_and!; [done | done |]. right.
    change (pretty x) with (pretty (N.pos x)). by rewrite Hd.
Qed.

Lemma digits_dash_split (d1 d2 r1 r2 : string) :
  all_digits d1 = true → all_digits d2 = true →
  d1 +:+ String "-" r1 = d2 +:+ String "-" r2 →
  d1 = d2 ∧ r1 = r2.
Proof.
  revert d2. induction d1 as [|c1 d1 IH]; intros [|c2 d2] H1 H2 Heq;
    rewrite ?append_nil_l, ?append_cons in Heq; simpl in H1, H2.
  - by injection Heq as ->.
  - injection Heq as <- _. by apply andb_true_iff in H2 as [? _].
  - injection Heq as -> _. by apply andb_true_iff in H1 as [? _].
  - injection Heq as -> Heq.
    apply andb_true_iff in H1 as [_ H1]. apply andb_true_iff in H2 as [_ H2].
    destruct (IH d2 H1 H2 Heq) as [-> ->]. done.
Qed.

Lemma registry_key_inj (h1 h2 : Z) (id1 id2 : string) :
  registry_key h1 id1 = registry_key h2 id2 → h1 = h2 ∧ id1 = id2.
Proof.
  unfold registry_key. intros Heq.
  change ("-" +:+ id1) with (String "-" id1) in Heq.
  change ("-" +:+ id2) with (String "-" id2) in Heq.
  destruct (pretty_Z_shape h1) as (d1 & Hd1 & Hne1 & Hp1).
  destruct (pretty_Z_shape h2) as (d2 & Hd2 & Hne2 & Hp2).
  assert (Hdone : pretty h1 = pretty h2 ∧ id1 = id2).
  { destruct Hp1 as [Hp1|Hp1], Hp2 as [Hp2|Hp2]; rewrite Hp1, Hp2 in Heq |- *.
    - destruct (digits_dash_split d1 d2 id1 id2 Hd1 Hd2 Heq) as [-> ->]. done.
    - exfalso. destruct d1 as [|c d1]; [done |].
      rewrite !append_cons in Heq. simpl in Hd1.
      injection Heq as -> _. by apply andb_true_iff in Hd1 as [? _].
    - exfalso. destruct d2 as [|c d2]; [done |].
      rewrite !append_cons in Heq. simpl in Hd2.
      injection Heq as <- _. by apply andb_true_iff in Hd2 as [? _].
    - rewrite !append_cons in Heq. injection Heq as Heq.
      destruct (digits_dash_split d1 d2 id1 id2 Hd1 Hd2 Heq) as [-> ->]. done. }
  destruct Hdone as [Hpretty ->]. split; [| done].
  by apply (inj pretty).
Qed.

(** X5. The registry key of a tree view determines its handle and its
    component id: two different pairs never share a key. *)
Theorem registry_key_determines_view (h1 h2 : Z) (id1 id2 : string) :
  registry_key h1 id1 = registry_key h2 id2 ↔ h1 = h2 ∧ id1 = id2.
Proof.
  split; [apply registry_key_inj |]. by intros [-> ->].
Qed.

Example registry_key_with_dashes :
  registry_key (-12) "a-3" = "-12-a-3" ∧ registry_key 12 "-a-3" = "12--a-3".
Proof. split; reflexivity. Qed.

(** ** Creating and disposing tree views *)

Lemma createTreeView_registers host h id p :
  let ref := fresh (dom (objects host)) in
  host_createTreeView host h id (Some {| treeDataProvider := Some p |})
  = ({| treeViews := <[registry_key h id := ref]> (treeViews host);
        objects := <[ref := new_ExtHostTreeView h id p]> (objects host) |},
     Normal {| captured_treeView := ref; captured_componentId := id |})
  ∧ objects host !! ref = None.
Proof.
  intros ref. split; [reflexivity |].
  apply not_elem_of_dom. apply is_fresh.
Qed.

(** X6. [$createTreeView] throws, and changes nothing, when the options or
    their provider are missing. Otherwise it creates a tree view object at a
    reference that was not in use, with the given handle, component id and
    provider and an empty cache, registers it under the key of the handle and
    the component id, and leaves every other registration and every other
    object as they were. *)
Theorem createTreeView_outcome
    (host : ExtHostModelViewTreeViews) (h : Z) (id : string)
    (options : option CreateOptions) :
  (options ≫= treeDataProvider = None →
     host_createTreeView host h id options
     = (host, Thrown (Error "Options with treeDataProvider is mandatory")))
  ∧ (∀ p, options ≫= treeDataProvider = Some p →
       ∃ host1 tv,
         host_createTreeView host h id options = (host1, Normal tv)
         ∧ captured_componentId tv = id
         ∧ objects host !! captured_treeView tv = None
         ∧ treeViews host1 !! registry_key h id = Some (captured_treeView tv)
         ∧ objects host1 !! captured_treeView tv = Some (new_ExtHostTreeView h id p)
         ∧ (∀ key, key ≠ registry_key h id →
              treeViews host1 !! key = treeViews host !! key)
         ∧ (∀ ref, ref ≠ captured_treeView tv →
              objects host1 !! ref = objects host !! ref)).
Proof.
  split.
  - intros Hnone. unfold host_createTreeView. by rewrite Hnone.
  - intros p Hp. unfold host_createTreeView. rewrite Hp.
    destruct (createTreeView_registers host h id p) as [_ Hfresh].
    unfold createExtHostTreeViewer. eexists _, _. split; [reflexivity |]. simpl.
    split_and!; try done.
    + by rewrite lookup_insert_eq.
    + by rewrite lookup_insert_eq.
    + intros key Hkey. by rewrite lookup_insert_ne.
    + intros ref Href. by rewrite lookup_insert_ne.
Qed.

(** X7. Two tree views created for different pairs of handle and component
    id are both registered afterwards, each under its own key and at its own
    reference, each with its own provider. *)
Theorem createTreeView_twice_coexist
    (host : ExtHostModelViewTreeViews) (h1 h2 : Z) (id1 id2 : string)
    (p1 p2 : sqlops.TreeComponentDataProvider) :
  (h1, id1) ≠ (h2, id2) →
  ∃ host1 tv1 host2 tv2,
    host_createTreeView host h1 id1 (Some {| treeDataProvider := Some p1 |})
      = (host1, Normal tv1)
    ∧ host_createTreeView host1 h2 id2 (Some {| treeDataProvider := Some p2 |})
      = (host2, Normal tv2)
    ∧ captured_treeView tv1 ≠ captured_treeView tv2
    ∧ treeViews host2 !! registry_key h1 id1 = Some (captured_treeView tv1)
    ∧ treeViews host2 !! registry_key h2 id2 = Some (captured_treeView tv2)
    ∧ objects host2 !! captured_treeView tv1 = Some (new_ExtHostTreeView h1 id1 p1)
    ∧ objects host2 !! captured_treeView tv2 = Some (new_ExtHostTreeView h2 id2 p2).
Proof.
  intros Hne.
  destruct (createTreeView_registers host h1 id1 p1) as [Hc1 Hf1].
  cbv zeta in Hc1, Hf1. set (ref1 := fresh (dom (objects host))) in *.
  set (host1 := {| treeViews := <[registry_key h1 id1 := ref1]> (treeViews host);
                   objects := <[ref1 := new_ExtHostTreeView h1 id1 p1]> (objects host) |})
    in *.
  destruct (createTreeView_registers host1 h2 id2 p2) as [Hc2 Hf2].
  cbv zeta in Hc2, Hf2. set (ref2 := fresh (dom (objects host1))) in *.
  assert (Hrefs : ref1 ≠ ref2).
  { intros Heq. rewrite <- Heq in Hf2. unfold host1 in Hf2. simpl in Hf2.
    by rewrite lookup_insert_eq in Hf2. }
  assert (Hkeys : registry_key h2 id2 ≠ registry_key h1 id1).
  { intros Heq. apply registry_key_inj in Heq as [-> ->]. by apply Hne. }
  eexists _, _, _, _. split; [exact Hc1 |]. split; [exact Hc2 |]. simpl.
  split_and!.
  - done.
  - rewrite lookup_insert_ne by done. by rewrite lookup_insert_eq.
  - by rewrite lookup_insert_eq.
  - rewrite lookup_insert_ne by done. by rewrite lookup_insert_eq.
  - by rewrite lookup_insert_eq.
Qed.

Lemma createTreeView_twice_coexist_witness :
  (1, "tree") ≠ (2, "tree")
  ∧ ∃ host1 tv1 host2 tv2,
      host_createTreeView empty_host 1 "tree"
          (Some {| treeDataProvider := Some abc_provider |}) = (host1, Normal tv1)
      ∧ host_createTreeView host1 2 "tree"
          (Some {| treeDataProvider := Some abc_provider |}) = (host2, Normal tv2)
      ∧ captured_treeView tv1 ≠ captured_treeView tv2
      ∧ treeViews host2 !! "1-tree" = Some (captured_treeView tv1)
      ∧ treeViews host2 !! "2-tree" = Some (captured_treeView tv2).
Proof.
  assert (Hne : (1, "tree") ≠ (2, "tree")) by discriminate.
  split; [exact Hne |].
  destruct (createTreeView_twice_coexist empty_host 1 2 "tree" "tree"
              abc_provider abc_provider Hne)
    as (host1 & tv1 & host2 & tv2 & H1 & H2 & Hrefs & Hk1 & Hk2 & _).
  exists host1, tv1, host2, tv2.
  split_and!; [exact H1 | exact H2 | exact Hrefs | exact Hk1 | exact Hk2].
Defined.

(** X8. [dispose] deletes the registration stored under the bare component
    id. When a second tree view is created with, as its component id, the key
    of a first one, disposing the second unregisters the first:
    [$getChildren] on the first view's key is rejected as not registered,
    while the disposed view itself is still registered under its own key. *)
Theorem dispose_unregisters_the_view_named_by_componentId
    (super : Inherited) (host : ExtHostModelViewTreeViews) (hA hB : Z) (idA : string)
    (pA pB : sqlops.TreeComponentDataProvider)
    (treeItemHandle : option TreeItemHandle) :
  let keyA := registry_key hA idA in
  let keyB := registry_key hB keyA in
  ∃ hostA tvA hostB tvB,
    host_createTreeView host hA idA (Some {| treeDataProvider := Some pA |})
      = (hostA, Normal tvA)
    ∧ host_createTreeView hostA hB keyA (Some {| treeDataProvider := Some pB |})
      = (hostB, Normal tvB)
    ∧ treeViews hostB !! keyA = Some (captured_treeView tvA)
    ∧ let disposed := TreeView_dispose hostB tvB in
      treeViews disposed !! keyA = None
      ∧ treeViews disposed !! keyB = Some (captured_treeView tvB)
      ∧ host_getChildren super disposed keyA treeItemHandle
        = (disposed, Rejected (Error
            ("No tree view with id '" +:+ keyA +:+ "' registered."))).
Proof.
  intros keyA keyB.
  destruct (createTreeView_registers host hA idA pA) as [HcA _].
  cbv zeta in HcA. set (refA := fresh (dom (objects host))) in *.
  set (hostA := {| treeViews := <[keyA := refA]> (treeViews host);
                   objects := <[refA := new_ExtHostTreeView hA idA pA]> (objects host) |})
    in *.
  destruct (createTreeView_registers hostA hB keyA pB) as [HcB _].
  cbv zeta in HcB. set (refB := fresh (dom (objects hostA))) in *.
  assert (Hkeys : keyB ≠ keyA) by apply registry_key_fresh.
  set (tvA := {| captured_treeView := refA; captured_componentId := idA |}) in *.
  set (hostB := {| treeViews := <[keyB := refB]> (treeViews hostA);
                   objects := <[refB := new_ExtHostTreeView hB keyA pB]> (objects hostA) |})
    in *.
  set (tvB := {| captured_treeView := refB; captured_componentId := keyA |}) in *.
  exists hostA, tvA, hostB, tvB. split; [exact HcA |]. split; [exact HcB |].
  assert (HregA : treeViews hostB !! keyA = Some refA).
  { unfold hostB, hostA. simpl.
    rewrite lookup_insert_ne by done. by rewrite lookup_insert_eq. }
  assert (HgoneA : treeViews (TreeView_dispose hostB tvB) !! keyA = None).
  { unfold TreeView_dispose, on_object. simpl. by rewrite lookup_delete_eq. }
  assert (HregB : treeViews (TreeView_dispose hostB tvB) !! keyB = Some refB).
  { unfold TreeView_dispose, on_object. simpl.
    rewrite lookup_delete_ne by (by apply not_eq_sym).
    by rewrite lookup_insert_eq. }
  split; [exact HregA |]. cbv zeta.
  split; [exact HgoneA |]. split; [exact HregB |].
  unfold host_getChildren. by rewrite HgoneA.
Qed.

Example dispose_unregisters_another_view :
  match host_createTreeView empty_host 1 "x"
          (Some {| treeDataProvider := Some abc_provider |}) with
  | (hostA, Normal tvA) =>
      match host_createTreeView hostA 2 "1-x"
              (Some {| treeDataProvider := Some abc_provider |}) with
      | (hostB, Normal tvB) =>
          treeViews hostB !! "1-x" = Some (captured_treeView tvA)
          ∧ treeViews (TreeView_dispose hostB tvB) !! "1-x" = None
          ∧ treeViews (TreeView_dispose hostB tvB) !! "2-1-x"
            = Some (captured_treeView tvB)
      | _ => False
      end
  | _ => False
  end.
Proof. vm_compute. auto. Qed.

(** ** What the registry keeps *)

(** X10. The registry stays consistent: when every registration points to a
    tree view object stored under the key of that object's own handle and
    component id, this is still so after [$createTreeView], after the
    [dispose] closure of any tree view, and after
    [$onNodeCheckedChanged]. *)
Theorem registered_consistent_preserved
    (host : ExtHostModelViewTreeViews) (h : Z) (id : string)
    (options : option CreateOptions) (tv : TreeView) (treeViewId : string)
    (treeItemHandle : option TreeItemHandle) (checked : JsVal) :
  registered_consistent host →
  registered_consistent (host_createTreeView host h id options).1
  ∧ registered_consistent (TreeView_dispose host tv)
  ∧ registered_consistent
      (host_onNodeCheckedChanged host treeViewId treeItemHandle checked).1.
Proof.
  intros Hinv. split_and!.
  - unfold host_createTreeView.
    destruct (options ≫= treeDataProvider) as [p|]; [| done].
    unfold createExtHostTreeViewer. simpl.
    intros key ref Hkey. simpl in Hkey.
    destruct (decide (key = registry_key h id)) as [->|Hne].
    + rewrite lookup_insert_eq in Hkey. injection Hkey as <-.
      exists (new_ExtHostTreeView h id p). simpl.
      by rewrite lookup_insert_eq.
    + rewrite lookup_insert_ne in Hkey by done.
      destruct (Hinv key ref Hkey) as (v & Hv & Hk).
      exists v. split; [| done]. simpl.
      rewrite lookup_insert_ne; [done |].
      intros <-. pose proof (is_fresh (dom (objects host))) as Hfresh.
      apply not_elem_of_dom in Hfresh. congruence.
  - unfold TreeView_dispose, on_object. simpl.
    intros key ref Hkey. simpl in Hkey.
    apply lookup_delete_Some in Hkey as [_ Hkey].
    destruct (Hinv key ref Hkey) as (v & Hv & Hk). simpl.
    destruct (decide (ref = captured_treeView tv)) as [->|Hne].
    + rewrite lookup_insert_eq. rewrite lookup_total_alt, Hv. simpl.
      eexists. split; [reflexivity | exact Hk].
    + rewrite lookup_insert_ne by done. eauto.
  - unfold host_onNodeCheckedChanged.
    destruct (treeViews host !! treeViewId) as [ref0|] eqn:Hreg; [| done].
    unfold on_object.
    destruct (onNodeCheckedChanged (objects host !!! ref0) treeItemHandle checked)
      as [v' c] eqn:Hcall. simpl.
    assert (Hsame : handle v' = handle (objects host !!! ref0)
                    ∧ componentId v' = componentId (objects host !!! ref0)).
    { unfold onNodeCheckedChanged in Hcall. injection Hcall as <- _.
      destruct treeItemHandle as [hd|]; simpl; [| done].
      by destruct (_ && _). }
    intros key ref Hkey. simpl in Hkey.
    destruct (Hinv key ref Hkey) as (v & Hv & Hk). simpl.
    destruct (decide (ref = ref0)) as [->|Hne].
    + rewrite lookup_insert_eq. exists v'. split; [done |].
      rewrite lookup_total_alt, Hv in Hsame. simpl in Hsame.
      destruct Hsame as [-> ->]. done.
    + rewrite lookup_insert_ne by done. eauto.
Qed.

Lemma registered_consistent_preserved_witness :
  registered_consistent empty_host
  ∧ registered_consistent
      (host_createTreeView empty_host 1 "tree"
         (Some {| treeDataProvider := Some abc_provider |})).1.
Proof.
  assert (Hempty : registered_consistent empty_host).
  { intros key ref Hkey. simpl in Hkey. by rewrite lookup_empty in Hkey. }
  split; [exact Hempty |].
  destruct (registered_consistent_preserved empty_host 1 "tree"
              (Some {| treeDataProvider := Some abc_provider |})
              {| captured_treeView := 1%positive; captured_componentId := "tree" |}
              "1-tree" None (VBool true) Hempty) as (Hcreate & _).
  exact Hcreate.
Defined.

(** X11. A handle whose cached element is falsy ([0], the empty string,
    [false], [null]) is reported as not found although it is in the cache,
    and the element is forwarded to the provider all the same. *)
Theorem onNodeCheckedChanged_falsy_element
    (v : ExtHostTreeView) (h : TreeItemHandle) (e : JsVal) (checked : JsVal) :
  h ≠ "" →
  elements v !! h = Some e →
  truthy e = false →
  trace (onNodeCheckedChanged v (Some h) checked).1
    = trace v ++ [ConsoleError ("No tree item with id '" +:+ h +:+ "' found.");
                  NodeCheckedChanged e checked]
  ∧ (onNodeCheckedChanged v (Some h) checked).2
    = match sqlops.onNodeCheckedChanged (componentDataProvider v) e checked with
      | None => Normal ()
      | Some err => Thrown err
      end.
Proof.
  intros Hh He Hfalsy. unfold onNodeCheckedChanged.
  assert (Hgiven : truthy (VStr h) = true).
  { simpl. by destruct (String.eqb_spec h ""). }
  assert (Hext : getExtensionElement v h = e).
  { unfold getExtensionElement. by rewrite He. }
  rewrite Hgiven, Hext, Hfalsy. simpl. split; [| done]. by rewrite <- app_assoc.
Qed.

Lemma onNodeCheckedChanged_falsy_element_witness :
  "h0" ≠ ""
  ∧ elements zero_view !! "h0" = Some (VNum 0)
  ∧ truthy (VNum 0) = false
  ∧ trace (onNodeCheckedChanged zero_view (Some "h0") (VBool true)).1
    = [ConsoleError "No tree item with id 'h0' found.";
       NodeCheckedChanged (VNum 0) (VBool true)].
Proof.
  assert (Hh : "h0" ≠ "") by discriminate.
  assert (He : elements zero_view !! "h0" = Some (VNum 0)) by (vm_compute; reflexivity).
  assert (Hf : truthy (VNum 0) = false) by reflexivity.
  split; [exact Hh |]. split; [exact He |]. split; [exact Hf |].
  destruct (onNodeCheckedChanged_falsy_element zero_view "h0" (VNum 0) (VBool true)
              Hh He Hf) as [Htrace _].
  exact Htrace.
Defined.

(** X12. After a refresh of the root the cache is gone: a checked-change that
    arrives for any handle handed out before is logged as not found and
    forwarded to the provider without an element. *)
Theorem onNodeCheckedChanged_after_root_refresh
    (super : Inherited) (modelViewProxy : MainThreadModelViewShape)
    (v : ExtHostTreeView) (els : list JsVal) (schedule : list nat)
    (h : TreeItemHandle) (checked : JsVal) :
  (∃ element, element ∈ els ∧ truthy element = false) →
  h ≠ "" →
  trace (onNodeCheckedChanged (refresh super modelViewProxy v els schedule) (Some h) checked).1
    = trace v ++ [RefreshDataProvider (handle v) (componentId v) None;
                  ConsoleError ("No tree item with id '" +:+ h +:+ "' found.");
                  NodeCheckedChanged VUndefined checked].
Proof.
  intros (element & Hin & Hfalsy) Hh. unfold refresh.
  assert (Hroot : existsb (λ element, negb (truthy element)) els = true).
  { apply existsb_exists. exists element. split; [by apply list_elem_of_In |].
    by rewrite Hfalsy. }
  rewrite Hroot. unfold onNodeCheckedChanged.
  assert (Hgiven : truthy (VStr h) = true).
  { simpl. by destruct (String.eqb_spec h ""). }
  rewrite Hgiven.
  assert (Hext : getExtensionElement
            (emit (RefreshDataProvider (handle v) (componentId v) None) (clearAll v)) h
          = VUndefined).
  { unfold getExtensionElement. simpl. by rewrite lookup_empty. }
  rewrite Hext. simpl. by rewrite <- !app_assoc.
Qed.

Lemma onNodeCheckedChanged_after_root_refresh_witness :
  (∃ element, element ∈ [VStr "a"; VNull] ∧ truthy element = false)
  ∧ "h1" ≠ ""
  ∧ trace (onNodeCheckedChanged
             (refresh label_projection accepting_proxy abc_view [VStr "a"; VNull] [])
             (Some "h1") (VBool true)).1
    = [RefreshDataProvider 7 "tree" None;
       ConsoleError "No tree item with id 'h1' found.";
       NodeCheckedChanged VUndefined (VBool true)].
Proof.
  assert (Hroot : ∃ element, element ∈ [VStr "a"; VNull] ∧ truthy element = false).
  { exists VNull. split; [| reflexivity].
    apply list_elem_of_further, list_elem_of_here. }
  assert (Hh : "h1" ≠ "") by discriminate.
  split; [exact Hroot |]. split; [exact Hh |].
  exact (onNodeCheckedChanged_after_root_refresh label_projection accepting_proxy abc_view
           [VStr "a"; VNull] [] "h1" (VBool true) Hroot Hh).
Defined.

(** ** The joined refresh *)

Section RefreshMore.

Context (super : Inherited) (modelViewProxy : MainThreadModelViewShape).

(** The errors and the keys collected by the join, exactly. *)
Lemma settle_all_exact settled j0 :
  let j := foldl (refresh_one super) j0 settled in
  j_errors j = j_errors j0 ++ omap fetch_error settled
  ∧ (∀ h, is_Some (j_items j !! h) ↔
       is_Some (j_items j0 !! h)
       ∨ ∃ f, f ∈ settled ∧ f_handle f = h ∧ fetch_yields f = true)
  ∧ trace (j_view j) = trace (j_view j0).
Proof.
  revert j0. induction settled as [|f settled IH]; intros j0 j.
  { unfold j. simpl. rewrite app_nil_r. split_and!; try done.
    intros h. split; [by left |]. intros [?|(f & Hin & _)]; [done |].
    by apply elem_of_nil in Hin. }
  unfold j. cbn [foldl]. set (j1 := refresh_one super j0 f).
  destruct (IH j1) as (Herr & Hitems & Htr). cbv zeta in Herr, Hitems, Htr.
  assert (Hstep : j_errors j1 = j_errors j0 ++ from_option (λ e, [e]) [] (fetch_error f)
                  ∧ (∀ h, is_Some (j_items j1 !! h) ↔
                       is_Some (j_items j0 !! h)
                       ∨ (f_handle f = h ∧ fetch_yields f = true))
                  ∧ trace (j_view j1) = trace (j_view j0)).
  { unfold j1, refresh_one, refreshNode_then, fetch_error, fetch_yields.
    destruct (f_promise f) as [[eti|]|err]; [destruct (f_existing f) as [ex|] |..];
      simpl; rewrite ?app_nil_r; (split_and!; [done | | done]);
      intros h; try (split; [by left | by intros [?|[_ ?]]]).
    destruct (decide (f_handle f = h)) as [Heq|Hne].
    - rewrite Heq, lookup_insert_eq. split; [by right | eauto].
    - rewrite lookup_insert_ne by done. split; [by left |].
      by intros [?|[? _]]. }
  destruct Hstep as (Herr1 & Hitems1 & Htr1).
  split_and!.
  - rewrite Herr, Herr1, <- app_assoc. f_equal. cbn [omap list_omap].
    by destruct (fetch_error f).
  - intros h. rewrite Hitems, Hitems1. split.
    + intros [[?|[Hh Hy]]|(f' & Hin & Hh & Hy)].
      * by left.
      * right. exists f. split_and!; [apply list_elem_of_here | done | done].
      * right. exists f'. split_and!; [by apply list_elem_of_further | done | done].
    + intros [?|(f' & Hin & Hh & Hy)]; [by left; left |].
      apply elem_of_cons in Hin as [->|Hin].
      * left. by right.
      * right. eauto.
  - by rewrite Htr, Htr1.
Qed.

(** X13. [refreshHandles], for every order in which the provider calls
    settle: the provider is asked once per handle, in the order of the
    handles, for the element the handle maps to ([undefined] when it maps to
    none). When some call rejects, or hands back an item for an element that
    has no node (the continuation then throws on [existing.parent]), the
    promise rejects with those errors and the host is not called: one failing
    handle keeps back the items of all the others. When none fails and no
    handle yields a node, the promise fulfils and the host is not called.
    Otherwise the host is called once, with exactly the handles that yielded
    a node as keys, and the promise settles as the host's answer does. *)
Theorem refreshHandles_outcome
    (v : ExtHostTreeView) (hs : list TreeItemHandle) (schedule : list nat) :
  schedule ≡ₚ seq 0 (length hs) →
  ∃ errs sent,
    errs ≡ₚ omap fetch_error (map (fetch_of v) hs)
    ∧ trace (refreshHandles super modelViewProxy v hs schedule).1
      = trace v ++ map GetTreeItem (map (getExtensionElement v) hs) ++ sent
    ∧ (errs ≠ [] →
         (refreshHandles super modelViewProxy v hs schedule).2
           = Rejected (JoinError errs)
         ∧ sent = [])
    ∧ (errs = [] → (∀ h, h ∈ hs → fetch_yields (fetch_of v h) = false) →
         (refreshHandles super modelViewProxy v hs schedule).2 = Resolved ()
         ∧ sent = [])
    ∧ (errs = [] → (∃ h, h ∈ hs ∧ fetch_yields (fetch_of v h) = true) →
         ∃ items,
           sent = [RefreshDataProvider (handle v) (componentId v) (Some items)]
           ∧ (refreshHandles super modelViewProxy v hs schedule).2
             = refreshDataProvider modelViewProxy (handle v) (componentId v) (Some items)
           ∧ ∀ h, is_Some (items !! h) ↔ h ∈ hs ∧ fetch_yields (fetch_of v h) = true).
Proof.
  intros Hsched. unfold refreshHandles. rewrite start_all_spec.
  set (v1 := emits (map GetTreeItem (map (getExtensionElement v) hs)) v).
  set (settled := omap (λ i, map (fetch_of v) hs !! i) schedule).
  set (j := foldl (refresh_one super)
              {| j_view := v1; j_items := ∅; j_errors := [] |} settled).
  assert (Hperm : settled ≡ₚ map (fetch_of v) hs).
  { apply omap_schedule. by rewrite length_map. }
  destruct (settle_all_exact settled {| j_view := v1; j_items := ∅; j_errors := [] |})
    as (Herr & Hitems & Htr).
  fold j in Herr, Hitems, Htr. simpl in Herr, Hitems, Htr.
  assert (Hkeys : ∀ h, is_Some (j_items j !! h) ↔
                    h ∈ hs ∧ fetch_yields (fetch_of v h) = true).
  { intros h. rewrite Hitems. split.
    - intros [Hempty|(f & Hin & Hh & Hy)].
      + rewrite lookup_empty in Hempty. by destruct Hempty.
      + rewrite Hperm in Hin. apply list_elem_of_fmap in Hin as (h' & -> & Hin).
        simpl in Hh. by subst h'.
    - intros [Hin Hy]. right. exists (fetch_of v h). split_and!; [| done | done].
      rewrite Hperm. apply list_elem_of_fmap. eauto. }
  destruct (j_errors j) as [|err errs] eqn:Herrs.
  - destruct (decide (size (j_items j) = 0%nat)) as [Hsize|Hsize].
    + apply map_size_empty_iff in Hsize.
      exists [], []. split_and!.
      * rewrite <- Hperm. by rewrite <- Herr.
      * simpl. by rewrite Htr, app_nil_r.
      * done.
      * done.
      * intros _ (h & Hin & Hy). exfalso.
        assert (Hsome : is_Some (j_items j !! h)) by (apply Hkeys; done).
        rewrite Hsize, lookup_empty in Hsome. by destruct Hsome.
    + apply map_size_non_empty_iff in Hsize.
      exists [], [RefreshDataProvider (handle v) (componentId v) (Some (j_items j))].
      split_and!.
      * rewrite <- Hperm. by rewrite <- Herr.
      * simpl. by rewrite Htr, <- app_assoc.
      * done.
      * intros _ Hnone. exfalso. apply Hsize.
        apply map_eq. intros h. rewrite lookup_empty.
        destruct (j_items j !! h) as [it|] eqn:Hit; [| done].
        assert (Hsome : is_Some (j_items j !! h)) by (rewrite Hit; eauto).
        apply Hkeys in Hsome as [Hin Hy]. rewrite (Hnone h Hin) in Hy. done.
      * intros _ _. exists (j_items j). split_and!; [done | done | exact Hkeys].
  - exists (err :: errs), []. split_and!.
    + rewrite <- Hperm. by rewrite <- Herr.
    + simpl. by rewrite Htr, app_nil_r.
    + done.
    + done.
    + done.
Qed.

End RefreshMore.

Lemma refreshHandles_outcome_witness :
  [1; 0]%nat ≡ₚ seq 0 (length ["h1"; "ghost"])
  ∧ (refreshHandles label_projection accepting_proxy abc_view
       ["h1"; "ghost"] [1; 0]%nat).2
    = Rejected (JoinError [TypeError "Cannot read property 'parent' of undefined"])
  ∧ trace (refreshHandles label_projection accepting_proxy abc_view
             ["h1"; "ghost"] [1; 0]%nat).1
    = [GetTreeItem (VStr "a"); GetTreeItem VUndefined].
Proof.
  assert (Hsched : [1; 0]%nat ≡ₚ seq 0 (length ["h1"; "ghost"])).
  { apply (bool_decide_unpack _). vm_compute. exact I. }
  split; [exact Hsched |].
  destruct (refreshHandles_outcome label_projection accepting_proxy abc_view
              ["h1"; "ghost"] [1; 0]%nat Hsched)
    as (errs & sent & Hperm & Htrace & Hfailed & _).
  assert (Hfe : omap fetch_error (map (fetch_of abc_view) ["h1"; "ghost"])
                = [TypeError "Cannot read property 'parent' of undefined"])
    by (vm_compute; reflexivity).
  rewrite Hfe in Hperm. apply Permutation_singleton_r in Hperm. subst errs.
  destruct (Hfailed ltac:(discriminate)) as [Hpromise Hsent].
  split; [exact Hpromise |].
  rewrite Htrace, Hsent. vm_compute. reflexivity.
Defined.

(** The host's answer is the promise's: with a host that rejects the call,
    the one handle that yields a node is sent and the promise rejects. *)
Example refreshHandles_host_rejects :
  (refreshHandles label_projection rejecting_proxy abc_view ["h1"] [0%nat]).2
  = Rejected (Error "host is gone")
  ∧ host_calls (trace (refreshHandles label_projection rejecting_proxy abc_view
                         ["h1"] [0%nat]).1) ≠ [].
Proof. split; [vm_compute; reflexivity | vm_compute; discriminate]. Qed.

Example refreshHandles_host_accepts :
  (refreshHandles label_projection accepting_proxy abc_view ["h1"; "h2"] [1; 0]%nat).2
  = Resolved ().
Proof. vm_compute. reflexivity. Qed.

End ModelViewTreeMore.
